(** * UnwrittenAR: the capture session engine

    A shallow embedding of the two stateful parts of the application:

    - [Recorder]: the unified audio/video recorder component
      (AudioRecorder: pickMimeType, resetRecording, start, pause, resume,
      stop, the unmount cleanup, and the recorder's ondataavailable and
      onstop handlers);
    - [Scanner]: the QR scan effect of App (start, loop, and the effect
      cleanup), and [ScanVisit]: whole visits to the scan screen;
    - [RecorderUI]: what the recorder renders, its mode buttons, Re-record,
      save and download, and the component driven through its buttons;
    - [Upload]: the submit form of App (ensureRoom, the file pickers,
      handleUpload);
    - [VoiceNote]: the audio-only recorder;
    - [Ingest]: the ingestMyWebAR HTTPS function.

    Handlers become functions on an explicit world: the component's state
    hooks, its refs, and the part of the browser the handlers talk to
    (capture streams with live tracks, interval timers, animation-frame
    callbacks, pending timeouts, the navigation log).  What the platform
    decides (does getUserMedia resolve, does the recorder constructor
    throw, what does the decoder return) is an argument of the handler. *)

From stdpp Require Import base option list gmap sets strings pretty.

Open Scope string_scope.
Open Scope list_scope.

(** A binary payload. *)
Definition bytes := list Byte.byte.

Module Recorder.

(** ** Data *)

(** [mode]: 'audio' | 'video'. *)
Inductive Mode := audio | video.

(** MediaRecorder.state *)
Inductive RecordingState := inactive | recording | paused.

#[global] Instance Mode_eq_dec : EqDecision Mode.
Proof. solve_decision. Defined.
#[global] Instance RecordingState_eq_dec : EqDecision RecordingState.
Proof. solve_decision. Defined.

(** A Blob: its bytes and its [type]; [size] is the number of bytes. *)
Record Blob := { payload : bytes; type : string }.

Definition size (b : Blob) : nat := length (payload b).

(** [new Blob(parts, { type })]: the parts' bytes, in order. *)
Definition new_Blob (parts : list Blob) (ty : string) : Blob :=
  {| payload := concat (map payload parts); type := ty |}.

(** What the page can ask the runtime about encoders: [window.MediaRecorder]
    may be missing, and so may its static [isTypeSupported]. *)
Record Runtime := {
  has_MediaRecorder : bool;
  isTypeSupported : option (string -> bool)
}.

(** The recorder object held in [mediaRecorderRef].  [mr_mode] is the
    [mode] its [onstop] handler closed over when [start] built it;
    [mr_stopping] says that [stop()] was called and the final
    dataavailable/stop events are still to be delivered. *)
Record MediaRecorder := {
  mr_stream : nat;
  mr_mimeType : option string;
  mr_state : RecordingState;
  mr_mode : Mode;
  mr_stopping : bool
}.

(** The live preview element behind [liveVideoRef]. *)
Record VideoEl := { srcObject : option nat; playing : bool }.

(** useState hooks. *)
Record Hooks := {
  mode : Mode;
  isRecording : bool;
  isPaused : bool;
  seconds : nat;
  blobUrl : option nat;
  blob : option Blob
}.

(** useRef cells. *)
Record Refs := {
  mediaRecorderRef : option MediaRecorder;
  chunksRef : list Blob;
  streamRef : option nat;
  liveVideoRef : option VideoEl;
  timerRef : option nat
}.

(** The browser: [live] are the capture streams whose tracks have not been
    stopped; [intervals] maps the id of every running interval timer to the
    value of [isPaused] its callback closed over; [object_urls] are the
    object URLs not yet revoked. *)
Record Browser := {
  live : gset nat;
  next_stream : nat;
  intervals : gmap nat bool;
  next_timer : nat;
  object_urls : gset nat;
  next_url : nat;
  alerts : list string
}.

Record World := { hooks : Hooks; refs : Refs; browser : Browser }.

(** ** Field updates *)

Definition with_hooks (f : Hooks -> Hooks) (w : World) : World :=
  {| hooks := f (hooks w); refs := refs w; browser := browser w |}.
Definition with_refs (f : Refs -> Refs) (w : World) : World :=
  {| hooks := hooks w; refs := f (refs w); browser := browser w |}.
Definition with_browser (f : Browser -> Browser) (w : World) : World :=
  {| hooks := hooks w; refs := refs w; browser := f (browser w) |}.

Definition setMode (m : Mode) (h : Hooks) : Hooks :=
  {| mode := m; isRecording := isRecording h; isPaused := isPaused h;
     seconds := seconds h; blobUrl := blobUrl h; blob := blob h |}.
Definition setIsRecording (b : bool) (h : Hooks) : Hooks :=
  {| mode := mode h; isRecording := b; isPaused := isPaused h;
     seconds := seconds h; blobUrl := blobUrl h; blob := blob h |}.
Definition setIsPaused (b : bool) (h : Hooks) : Hooks :=
  {| mode := mode h; isRecording := isRecording h; isPaused := b;
     seconds := seconds h; blobUrl := blobUrl h; blob := blob h |}.
(** [setSeconds] is used with an updater function as well as a value. *)
Definition setSeconds (f : nat -> nat) (h : Hooks) : Hooks :=
  {| mode := mode h; isRecording := isRecording h; isPaused := isPaused h;
     seconds := f (seconds h); blobUrl := blobUrl h; blob := blob h |}.
Definition setBlobUrl (u : option nat) (h : Hooks) : Hooks :=
  {| mode := mode h; isRecording := isRecording h; isPaused := isPaused h;
     seconds := seconds h; blobUrl := u; blob := blob h |}.
Definition setBlob (b : option Blob) (h : Hooks) : Hooks :=
  {| mode := mode h; isRecording := isRecording h; isPaused := isPaused h;
     seconds := seconds h; blobUrl := blobUrl h; blob := b |}.

Definition set_mediaRecorderRef (m : option MediaRecorder) (r : Refs) : Refs :=
  {| mediaRecorderRef := m; chunksRef := chunksRef r; streamRef := streamRef r;
     liveVideoRef := liveVideoRef r; timerRef := timerRef r |}.
Definition set_chunksRef (c : list Blob) (r : Refs) : Refs :=
  {| mediaRecorderRef := mediaRecorderRef r; chunksRef := c;
     streamRef := streamRef r; liveVideoRef := liveVideoRef r;
     timerRef := timerRef r |}.
Definition set_streamRef (s : option nat) (r : Refs) : Refs :=
  {| mediaRecorderRef := mediaRecorderRef r; chunksRef := chunksRef r;
     streamRef := s; liveVideoRef := liveVideoRef r; timerRef := timerRef r |}.
Definition set_liveVideoRef (v : option VideoEl) (r : Refs) : Refs :=
  {| mediaRecorderRef := mediaRecorderRef r; chunksRef := chunksRef r;
     streamRef := streamRef r; liveVideoRef := v; timerRef := timerRef r |}.
Definition set_timerRef (t : option nat) (r : Refs) : Refs :=
  {| mediaRecorderRef := mediaRecorderRef r; chunksRef := chunksRef r;
     streamRef := streamRef r; liveVideoRef := liveVideoRef r; timerRef := t |}.

Definition set_mr_state (st : RecordingState) (m : MediaRecorder) : MediaRecorder :=
  {| mr_stream := mr_stream m; mr_mimeType := mr_mimeType m; mr_state := st;
     mr_mode := mr_mode m; mr_stopping := mr_stopping m |}.
Definition set_mr_stopping (b : bool) (m : MediaRecorder) : MediaRecorder :=
  {| mr_stream := mr_stream m; mr_mimeType := mr_mimeType m;
     mr_state := mr_state m; mr_mode := mr_mode m; mr_stopping := b |}.

(** ** Browser primitives *)

(** A resolved [getUserMedia]: a fresh stream with live tracks. *)
Definition new_stream (b : Browser) : Browser :=
  {| live := {[ next_stream b ]} ∪ live b; next_stream := S (next_stream b);
     intervals := intervals b; next_timer := next_timer b;
     object_urls := object_urls b; next_url := next_url b;
     alerts := alerts b |}.

(** [stream.getTracks().forEach((t) => t.stop())] *)
Definition stop_tracks (id : nat) (b : Browser) : Browser :=
  {| live := live b ∖ {[ id ]}; next_stream := next_stream b;
     intervals := intervals b; next_timer := next_timer b;
     object_urls := object_urls b; next_url := next_url b;
     alerts := alerts b |}.

(** [setInterval(cb, 1000)], where [cb] closed over [captured]. *)
Definition setInterval (captured : bool) (b : Browser) : Browser :=
  {| live := live b; next_stream := next_stream b;
     intervals := <[ next_timer b := captured ]> (intervals b);
     next_timer := S (next_timer b);
     object_urls := object_urls b; next_url := next_url b;
     alerts := alerts b |}.

(** [clearInterval(timerRef.current)]; clearing [null] does nothing. *)
Definition clearInterval (t : option nat) (b : Browser) : Browser :=
  match t with
  | None => b
  | Some id =>
      {| live := live b; next_stream := next_stream b;
         intervals := delete id (intervals b); next_timer := next_timer b;
         object_urls := object_urls b; next_url := next_url b;
         alerts := alerts b |}
  end.

Definition createObjectURL (b : Browser) : Browser :=
  {| live := live b; next_stream := next_stream b;
     intervals := intervals b; next_timer := next_timer b;
     object_urls := {[ next_url b ]} ∪ object_urls b;
     next_url := S (next_url b); alerts := alerts b |}.

Definition revokeObjectURL (u : nat) (b : Browser) : Browser :=
  {| live := live b; next_stream := next_stream b;
     intervals := intervals b; next_timer := next_timer b;
     object_urls := object_urls b ∖ {[ u ]}; next_url := next_url b;
     alerts := alerts b |}.

Definition alert (msg : string) (b : Browser) : Browser :=
  {| live := live b; next_stream := next_stream b;
     intervals := intervals b; next_timer := next_timer b;
     object_urls := object_urls b; next_url := next_url b;
     alerts := alerts b ++ [msg] |}.

(** ** pickMimeType *)

Definition candidates (kind : Mode) : list string :=
  match kind with
  | video =>
      [ "video/webm;codecs=vp9,opus";
        "video/webm;codecs=vp8,opus";
        "video/webm" ]
  | audio => [ "audio/webm;codecs=opus"; "audio/webm" ]
  end.

(** [window.MediaRecorder && MediaRecorder.isTypeSupported?.(t)] *)
Definition supported (rt : Runtime) (t : string) : bool :=
  has_MediaRecorder rt &&
  match isTypeSupported rt with
  | Some f => f t
  | None => false
  end.

(** The [for (const t of candidates)] loop; [None] is [undefined]. *)
Fixpoint pick_from (rt : Runtime) (cs : list string) : option string :=
  match cs with
  | [] => None
  | t :: rest => if supported rt t then Some t else pick_from rt rest
  end.

Definition pickMimeType (rt : Runtime) (kind : Mode) : option string :=
  pick_from rt (candidates kind).

(** ** Handlers

    A button handler runs in the closure of the render that is on screen,
    so the state it closes over is the state of the world it is applied to.
    The two closures that outlive that render are kept explicitly: the
    interval callback's [isPaused] (in [intervals]) and the onstop
    handler's [mode] (in [mr_mode]). *)

Definition resetRecording (w : World) : World :=
  let w := with_hooks (setBlob None) w in
  let w := match blobUrl (hooks w) with
           | Some u => with_browser (revokeObjectURL u) w
           | None => w
           end in
  let w := with_hooks (setBlobUrl None) w in
  let w := with_hooks (setSeconds (fun _ => 0)) w in
  with_hooks (setIsPaused false) w.

(** What the platform answers during one call of [start]; [Some msg] is an
    exception (or a rejected promise) whose [e.message] is [msg]. *)
Record StartEnv := {
  runtime : Runtime;
  getUserMedia : option string;
  play_ok : bool;
  construct : option string;
  mr_start : option string
}.

(** The [catch (e)] of [start]. *)
Definition start_failed (msg : string) (w : World) : World :=
  with_browser (alert ("Unable to start recording: " +:+ msg)) w.

(** [start], taken as one step: its two awaits are answered by [env]. *)
Definition start (env : StartEnv) (w : World) : World :=
  let render_isPaused := isPaused (hooks w) in
  let render_mode := mode (hooks w) in
  let w := resetRecording w in
  match getUserMedia env with
  | Some msg => start_failed msg w
  | None =>
      let stream := next_stream (browser w) in
      let w := with_browser new_stream w in
      let w := with_refs (set_streamRef (Some stream)) w in
      let w :=
        match render_mode, liveVideoRef (refs w) with
        | video, Some _ =>
            (* play() rejecting is swallowed by .catch(() => {}) *)
            with_refs (set_liveVideoRef
              (Some {| srcObject := Some stream; playing := play_ok env |})) w
        | _, _ => w
        end in
      let mimeType := pickMimeType (runtime env) render_mode in
      match construct env with
      | Some msg => start_failed msg w
      | None =>
          let mr := {| mr_stream := stream; mr_mimeType := mimeType;
                       mr_state := inactive; mr_mode := render_mode;
                       mr_stopping := false |} in
          let w := with_refs (set_chunksRef []) w in
          match mr_start env with
          | Some msg => start_failed msg w
          | None =>
              let mr := set_mr_state recording mr in
              let w := with_refs (set_mediaRecorderRef (Some mr)) w in
              let w := with_hooks (setIsRecording true) w in
              let w := with_hooks (setIsPaused false) w in
              let w := with_hooks (setSeconds (fun _ => 0)) w in
              let timer := next_timer (browser w) in
              let w := with_browser (setInterval render_isPaused) w in
              with_refs (set_timerRef (Some timer)) w
          end
      end
  end.

(** One firing of an interval callback:
    [setSeconds((s) => (isPaused ? s : s + 1))], with the [isPaused] the
    callback closed over. *)
Definition interval_callback (captured_isPaused : bool) (s : nat) : nat :=
  if captured_isPaused then s else s + 1.

(** One second passes: every running interval fires once. *)
Definition tick (w : World) : World :=
  with_hooks
    (setSeconds (fun s =>
       map_fold (fun _ captured acc => interval_callback captured acc)
                s (intervals (browser w))))
    w.

Definition pause (w : World) : World :=
  match mediaRecorderRef (refs w) with
  | None => w
  | Some mr =>
      match mr_state mr with
      | recording =>
          let w := with_refs (set_mediaRecorderRef
                                (Some (set_mr_state paused mr))) w in
          with_hooks (setIsPaused true) w
      | _ => w
      end
  end.

Definition resume (w : World) : World :=
  match mediaRecorderRef (refs w) with
  | None => w
  | Some mr =>
      match mr_state mr with
      | paused =>
          let w := with_refs (set_mediaRecorderRef
                                (Some (set_mr_state recording mr))) w in
          with_hooks (setIsPaused false) w
      | _ => w
      end
  end.

(** [mr.stop()] on a recorder that is not inactive: the recorder becomes
    inactive and its last two events are queued.  On an inactive recorder
    the call throws and changes nothing. *)
Definition mr_stop (mr : MediaRecorder) : MediaRecorder :=
  match mr_state mr with
  | inactive => mr
  | _ => set_mr_stopping true (set_mr_state inactive mr)
  end.

(** Does the [try] block of [stop] throw?  (The [finally] block runs all
    the same.) *)
Definition stop_throws (w : World) : bool :=
  match mediaRecorderRef (refs w) with
  | Some mr => isRecording (hooks w) && bool_decide (mr_state mr = inactive)
  | None => false
  end.

Definition stop (w : World) : World :=
  (* try *)
  let w :=
    match mediaRecorderRef (refs w) with
    | Some mr =>
        if isRecording (hooks w)
        then with_refs (set_mediaRecorderRef (Some (mr_stop mr))) w
        else w
    | None => w
    end in
  (* finally *)
  let w := with_hooks (setIsRecording false) w in
  let w := with_hooks (setIsPaused false) w in
  let w := with_browser (clearInterval (timerRef (refs w))) w in
  let w := with_refs (set_timerRef None) w in
  let w :=
    match streamRef (refs w) with
    | Some id =>
        let w := with_browser (stop_tracks id) w in
        with_refs (set_streamRef None) w
    | None => w
    end in
  match liveVideoRef (refs w) with
  | Some _ =>
      with_refs (set_liveVideoRef
                   (Some {| srcObject := None; playing := false |})) w
  | None => w
  end.

(** [mr.ondataavailable]: [e.data] may be missing. *)
Definition ondataavailable (data : option Blob) (w : World) : World :=
  match data with
  | Some d =>
      if bool_decide (0 < size d)
      then with_refs (set_chunksRef (chunksRef (refs w) ++ [d])) w
      else w
  | None => w
  end.

(** The [type] given to the finished blob, from the [mode] closed over. *)
Definition blob_type_of (m : Mode) : string :=
  match m with
  | video => "video/webm"
  | audio => "audio/webm"
  end.

(** [mr.onstop] *)
Definition onstop (closure_mode : Mode) (w : World) : World :=
  let b := new_Blob (chunksRef (refs w)) (blob_type_of closure_mode) in
  let w := with_hooks (setBlob (Some b)) w in
  let url := next_url (browser w) in
  let w := with_browser createObjectURL w in
  with_hooks (setBlobUrl (Some url)) w.

(** The browser delivers a dataavailable event to the current recorder. *)
Definition deliver_data (data : option Blob) (w : World) : World :=
  match mediaRecorderRef (refs w) with
  | Some _ => ondataavailable data w
  | None => w
  end.

(** The browser finishes a [stop()]: a last dataavailable event with what
    was still buffered, then the stop event. *)
Definition deliver_stop (final : option Blob) (w : World) : World :=
  match mediaRecorderRef (refs w) with
  | Some mr =>
      if mr_stopping mr
      then
        let w := ondataavailable final w in
        let w := onstop (mr_mode mr) w in
        with_refs (set_mediaRecorderRef (Some (set_mr_stopping false mr))) w
      else w
  | None => w
  end.

(** The cleanup of the mount effect.  The effect has no dependencies, so
    the [blobUrl] its cleanup closes over is the first render's [null] and
    the last line never revokes anything. *)
Definition unmount (w : World) : World :=
  let w := with_browser (clearInterval (timerRef (refs w))) w in
  let w :=
    match mediaRecorderRef (refs w) with
    | Some mr =>
        if bool_decide (mr_state mr <> inactive)
        then with_refs (set_mediaRecorderRef (Some (mr_stop mr))) w
        else w
    | None => w
    end in
  let w :=
    match streamRef (refs w) with
    | Some id => with_browser (stop_tracks id) w
    | None => w
    end in
  match liveVideoRef (refs w) with
  | Some v =>
      with_refs (set_liveVideoRef
                   (Some {| srcObject := None; playing := playing v |})) w
  | None => w
  end.

(** ** Sessions as event traces *)

Inductive Event :=
| Start (env : StartEnv)
| Pause
| Resume
| Stop
| Tick
| Data (data : option Blob)
| Stopped (final : option Blob)
| Unmount.

Definition step (w : World) (e : Event) : World :=
  match e with
  | Start env => start env w
  | Pause => pause w
  | Resume => resume w
  | Stop => stop w
  | Tick => tick w
  | Data d => deliver_data d w
  | Stopped f => deliver_stop f w
  | Unmount => unmount w
  end.

Definition run (w : World) (es : list Event) : World := foldl step w es.

(** The component as first mounted in the given mode. *)
Definition mounted (m : Mode) : World :=
  {| hooks := {| mode := m; isRecording := false; isPaused := false;
                 seconds := 0; blobUrl := None; blob := None |};
     refs := {| mediaRecorderRef := None; chunksRef := [];
                streamRef := None; liveVideoRef := None; timerRef := None |};
     browser := {| live := ∅; next_stream := 0; intervals := ∅;
                   next_timer := 0; object_urls := ∅; next_url := 0;
                   alerts := [] |} |}.

(** A runtime that supports every format, and one call of [start] in which
    nothing fails. *)
Definition full_runtime : Runtime :=
  {| has_MediaRecorder := true; isTypeSupported := Some (fun _ => true) |}.

Definition start_ok (rt : Runtime) : StartEnv :=
  {| runtime := rt; getUserMedia := None; play_ok := true;
     construct := None; mr_start := None |}.

(** ** Vocabulary of the statements *)

(** The runtime does not report [t] as supported. *)
Definition unsupported (rt : Runtime) (t : string) : Prop :=
  supported rt t = false.

(** A session that was started and stopped: its recorder is inactive. *)
Definition stopped_audio : World :=
  run (mounted audio) [Start (start_ok full_runtime); Stop; Stopped None].

(** The events of a session between start and stop that the timer can
    see: the two buttons and the passing seconds. *)
Definition timer_event (e : Event) : bool :=
  match e with
  | Pause | Resume | Tick => true
  | _ => false
  end.

(** The seconds that pass during a trace. *)
Fixpoint ticks (es : list Event) : nat :=
  match es with
  | [] => 0
  | Tick :: rest => S (ticks rest)
  | _ :: rest => ticks rest
  end.

(** Start, five ticks, pause. *)
Definition until_pause : list Event :=
  Start (start_ok full_runtime) :: replicate 5 Tick ++ [Pause].

(** The scenario of the specification: start, pause at tick 5, three
    ticks, resume, two ticks, stop. *)
Definition pause_scenario : list Event :=
  until_pause ++ replicate 3 Tick ++ [Resume] ++ replicate 2 Tick ++ [Stop].

(** A call of [start] in which the stream is granted and the recorder
    constructor throws. *)
Definition recorder_refused : StartEnv :=
  {| runtime := full_runtime; getUserMedia := None; play_ok := true;
     construct := Some "NotSupportedError"; mr_start := None |}.

(** What one dataavailable event adds to the buffer: its blob, unless the
    event carries none or an empty one. *)
Definition kept (data : option Blob) : list Blob :=
  match data with
  | Some d => if bool_decide (0 < size d) then [d] else []
  | None => []
  end.

(** The events that can reach a session between start and stop. *)
Definition session_event (e : Event) : bool :=
  match e with
  | Pause | Resume | Tick | Data _ => true
  | _ => false
  end.

(** The chunks a trace appends, in arrival order. *)
Fixpoint appended (es : list Event) : list Blob :=
  match es with
  | [] => []
  | Data d :: rest => kept d ++ appended rest
  | _ :: rest => appended rest
  end.

(** Every blob a trace delivers, kept or not. *)
Fixpoint delivered (es : list Event) : list Blob :=
  match es with
  | [] => []
  | Data (Some d) :: rest => d :: delivered rest
  | _ :: rest => delivered rest
  end.

(** A session in progress: shown as recording, an active recorder whose
    onstop closed over [m], and [cs] in the buffer. *)
Definition in_session (m : Mode) (cs : list Blob) (w : World) : Prop :=
  isRecording (hooks w) = true /\
  chunksRef (refs w) = cs /\
  exists mr,
    mediaRecorderRef (refs w) = Some mr /\
    mr_state mr <> inactive /\
    mr_mode mr = m /\
    mr_stopping mr = false.

(** A chunk with the given bytes. *)
Definition chunk (bs : bytes) : Blob := {| payload := bs; type := "" |}.

(** Three chunks that count, an empty one and a missing one, around a
    pause. *)
Definition three_chunks : list Event :=
  [ Data (Some (chunk [Byte.x01; Byte.x02])); Tick; Data (Some (chunk []));
    Pause; Data None; Resume; Data (Some (chunk [Byte.x03])) ].

End Recorder.

Module Scanner.

(** ** Data *)

(** What one call of [jsQR] on the sampled frame does: it returns [null],
    it returns a code whose [data] is the decoded text, or it throws. *)
Inductive Decode :=
| NoCode
| Code (data : string)
| Throws.

(** [code?.data] as a condition: a code whose text is not empty. *)
Definition found (d : Decode) : option string :=
  match d with
  | Code data => if bool_decide (data = "") then None else Some data
  | _ => None
  end.

(** The refs of the scan effect and the browser around it.
    [frame_callbacks] are the pending requestAnimationFrame callbacks in the
    order they were requested, each with its handle and the [stream] its
    [loop] closed over; [timeouts] are the pending redirect timers, oldest
    first, each with the text to navigate to; [location_href] lists the
    assignments to [window.location.href], oldest first. *)
Record World := {
  cameraAllowed : bool;
  videoRef : bool;
  canvasRef : bool;
  rafRef : option nat;
  streamRef : option nat;
  live : gset nat;
  next_stream : nat;
  frame_callbacks : list (nat * nat);
  next_handle : nat;
  timeouts : list string;
  location_href : list string
}.

Definition setCameraAllowed (b : bool) (w : World) : World :=
  {| cameraAllowed := b; videoRef := videoRef w; canvasRef := canvasRef w;
     rafRef := rafRef w; streamRef := streamRef w; live := live w;
     next_stream := next_stream w; frame_callbacks := frame_callbacks w;
     next_handle := next_handle w; timeouts := timeouts w;
     location_href := location_href w |}.

Definition set_streamRef (s : option nat) (w : World) : World :=
  {| cameraAllowed := cameraAllowed w; videoRef := videoRef w;
     canvasRef := canvasRef w; rafRef := rafRef w; streamRef := s;
     live := live w; next_stream := next_stream w;
     frame_callbacks := frame_callbacks w; next_handle := next_handle w;
     timeouts := timeouts w; location_href := location_href w |}.

(** A resolved [getUserMedia]. *)
Definition new_stream (w : World) : World :=
  {| cameraAllowed := cameraAllowed w; videoRef := videoRef w;
     canvasRef := canvasRef w; rafRef := rafRef w; streamRef := streamRef w;
     live := {[ next_stream w ]} ∪ live w; next_stream := S (next_stream w);
     frame_callbacks := frame_callbacks w; next_handle := next_handle w;
     timeouts := timeouts w; location_href := location_href w |}.

(** [stream.getTracks().forEach((t) => t.stop())] *)
Definition stop_tracks (id : nat) (w : World) : World :=
  {| cameraAllowed := cameraAllowed w; videoRef := videoRef w;
     canvasRef := canvasRef w; rafRef := rafRef w; streamRef := streamRef w;
     live := live w ∖ {[ id ]}; next_stream := next_stream w;
     frame_callbacks := frame_callbacks w; next_handle := next_handle w;
     timeouts := timeouts w; location_href := location_href w |}.

(** [rafRef.current = requestAnimationFrame(loop)], for the [loop] that
    closed over [stream]. *)
Definition schedule (stream : nat) (w : World) : World :=
  {| cameraAllowed := cameraAllowed w; videoRef := videoRef w;
     canvasRef := canvasRef w; rafRef := Some (next_handle w);
     streamRef := streamRef w; live := live w; next_stream := next_stream w;
     frame_callbacks := frame_callbacks w ++ [(next_handle w, stream)];
     next_handle := S (next_handle w);
     timeouts := timeouts w; location_href := location_href w |}.

Definition drop_handle (h : nat) (cbs : list (nat * nat)) : list (nat * nat) :=
  filter (fun cb => cb.1 <> h) cbs.

(** [cancelAnimationFrame(rafRef.current)] *)
Definition cancelAnimationFrame (w : World) : World :=
  match rafRef w with
  | None => w
  | Some h =>
      {| cameraAllowed := cameraAllowed w; videoRef := videoRef w;
         canvasRef := canvasRef w; rafRef := rafRef w;
         streamRef := streamRef w; live := live w;
         next_stream := next_stream w;
         frame_callbacks := drop_handle h (frame_callbacks w);
         next_handle := next_handle w;
         timeouts := timeouts w; location_href := location_href w |}
  end.

(** [setTimeout(() => { window.location.href = data; }, 150)]; the handle
    is not kept. *)
Definition setTimeout (data : string) (w : World) : World :=
  {| cameraAllowed := cameraAllowed w; videoRef := videoRef w;
     canvasRef := canvasRef w; rafRef := rafRef w; streamRef := streamRef w;
     live := live w; next_stream := next_stream w;
     frame_callbacks := frame_callbacks w; next_handle := next_handle w;
     timeouts := timeouts w ++ [data]; location_href := location_href w |}.

(** ** The scan effect *)

(** One run of [loop], for the loop that closed over [stream], on a frame
    that decodes as [d].  An exception thrown by the decoder leaves [loop]
    before its last line: nothing is scheduled. *)
Definition loop (stream : nat) (d : Decode) (w : World) : World :=
  if videoRef w && canvasRef w
  then
    match d with
    | Throws => w
    | _ =>
        match found d with
        | Some data =>
            let w := stop_tracks stream w in
            let w := cancelAnimationFrame w in
            setTimeout data w
        | None => schedule stream w
        end
    end
  else schedule stream w.

(** What the platform answers during one call of the effect's [start]. *)
Record StartEnv := { getUserMedia_ok : bool; play_ok : bool }.

(** The effect body on entering the scan screen, taken as one step. *)
Definition start (env : StartEnv) (w : World) : World :=
  if getUserMedia_ok env
  then
    let stream := next_stream w in
    let w := new_stream w in
    let w := set_streamRef (Some stream) w in
    if videoRef w
    then
      if play_ok env
      then
        let w := setCameraAllowed true w in
        schedule stream w
      else setCameraAllowed false w
    else w
  else setCameraAllowed false w.

(** The effect cleanup, run when the scan screen is left: [cancel()]. *)
Definition cleanup (w : World) : World :=
  let w := cancelAnimationFrame w in
  match streamRef w with
  | Some id => stop_tracks id w
  | None => w
  end.

(** The browser paints one frame, which decodes as [d]: the callbacks that
    were pending when the frame began run in order, each unless it was
    cancelled in the meantime. *)
Definition run_callback (d : Decode) (w : World) (cb : nat * nat) : World :=
  if bool_decide (cb ∈ frame_callbacks w)
  then
    let w' :=
      {| cameraAllowed := cameraAllowed w; videoRef := videoRef w;
         canvasRef := canvasRef w; rafRef := rafRef w;
         streamRef := streamRef w; live := live w;
         next_stream := next_stream w;
         frame_callbacks := drop_handle cb.1 (frame_callbacks w);
         next_handle := next_handle w;
         timeouts := timeouts w; location_href := location_href w |} in
    loop cb.2 d w'
  else w.

Definition frame (d : Decode) (w : World) : World :=
  foldl (run_callback d) w (frame_callbacks w).

(** The oldest pending redirect timer fires. *)
Definition timeout (w : World) : World :=
  match timeouts w with
  | [] => w
  | data :: rest =>
      {| cameraAllowed := cameraAllowed w; videoRef := videoRef w;
         canvasRef := canvasRef w; rafRef := rafRef w;
         streamRef := streamRef w; live := live w;
         next_stream := next_stream w;
         frame_callbacks := frame_callbacks w; next_handle := next_handle w;
         timeouts := rest; location_href := location_href w ++ [data] |}
  end.

Inductive Event :=
| Activate (env : StartEnv)
| Frame (d : Decode)
| Timeout
| Cleanup.

Definition step (w : World) (e : Event) : World :=
  match e with
  | Activate env => start env w
  | Frame d => frame d w
  | Timeout => timeout w
  | Cleanup => cleanup w
  end.

Definition run (w : World) (es : list Event) : World := foldl step w es.

(** The scan screen as first shown: video and canvas elements mounted,
    nothing acquired or scheduled. *)
Definition mounted : World :=
  {| cameraAllowed := false; videoRef := true; canvasRef := true;
     rafRef := None; streamRef := None; live := ∅; next_stream := 0;
     frame_callbacks := []; next_handle := 0; timeouts := [];
     location_href := [] |}.

Definition granted : StartEnv := {| getUserMedia_ok := true; play_ok := true |}.

(** ** Vocabulary of the statements *)

(** The loop that closed over [stream] is scanning: both elements are
    mounted and its callback, whose handle is in [rafRef], is the one
    pending animation-frame callback. *)
Definition scanning (stream : nat) (w : World) : Prop :=
  videoRef w = true /\
  canvasRef w = true /\
  exists h, rafRef w = Some h /\ frame_callbacks w = [(h, stream)].

#[global] Instance scanning_dec stream w : Decision (scanning stream w).
Proof.
  unfold scanning.
  destruct (rafRef w) as [h|].
  - destruct (decide (videoRef w = true /\ canvasRef w = true /\
                      frame_callbacks w = [(h, stream)])) as [H|H].
    + left. destruct H as (Hv & Hc & Hcb).
      split; [exact Hv|]. split; [exact Hc|].
      exists h. split; [reflexivity | exact Hcb].
    + right. intros (Hv & Hc & h' & Hh & Hcb).
      injection Hh as <-. apply H. repeat split; assumption.
  - right. intros (_ & _ & h' & Hh & _). discriminate Hh.
Defined.

(** A decode attempt that returns without a payload. *)
Definition miss (d : Decode) : bool :=
  match d with
  | NoCode => true
  | Code data => bool_decide (data = "")
  | Throws => false
  end.

(** Events other than a new activation of the effect. *)
Definition quiet (e : Event) : bool :=
  match e with
  | Activate _ => false
  | _ => true
  end.

(** How many times a redirect timer was given the chance to fire. *)
Fixpoint fired (es : list Event) : nat :=
  match es with
  | [] => 0
  | Timeout :: rest => S (fired rest)
  | _ :: rest => fired rest
  end.

(** The scan screen with the camera granted and the loop started. *)
Definition activated : World := run mounted [Activate granted].

(** A decode attempt that arms no redirect, whether it returns or throws. *)
Definition no_hit (d : Decode) : bool :=
  match found d with
  | Some _ => false
  | None => true
  end.

(** The scan screen is entered, one frame misses, the next decodes. *)
Definition late_decode : list Event :=
  [ Activate granted; Frame NoCode;
    Frame (Code "https://example.org/room") ].

End Scanner.

(** What an awaited call to a service does: it resolves with a value, or
    rejects with an error whose [message] is given. *)
Inductive Outcome (A : Type) :=
| Resolved (a : A)
| Rejected (message : string).
Arguments Resolved {A} a.
Arguments Rejected {A} message.

(** * The ingest endpoint

    [ingestMyWebAR], the HTTPS function that registers an external AR
    experience for a room. *)

Module Ingest.

(** A field of the parsed request body, as far as the handler looks at it:
    missing, a string, or any other JSON value, which the handler only
    tests for truthiness and, for [url], converts to a string. *)
Inductive Value :=
| Undefined
| Str (s : string)
| Other (is_truthy : bool) (text : string).

(** [!!v] *)
Definition truthy (v : Value) : bool :=
  match v with
  | Undefined => false
  | Str s => negb (bool_decide (s = ""))
  | Other b _ => b
  end.

(** [String(v)], as [RegExp.prototype.test] converts its argument. *)
Definition to_text (v : Value) : string :=
  match v with
  | Undefined => "undefined"
  | Str s => s
  | Other _ text => text
  end.

(** [a || b] *)
Definition or_else (a b : Value) : Value := if truthy a then a else b.

(** The request: its method and, when the body parsed to an object, the
    four fields the handler reads.  [req.body || {}] makes a missing body
    an object without fields. *)
Record Body := {
  body_roomId : Value;
  body_url : Value;
  body_title : Value;
  body_thumbUrl : Value
}.

Record Request := { method : string; body : option Body }.

Definition empty_body : Body :=
  {| body_roomId := Undefined; body_url := Undefined;
     body_title := Undefined; body_thumbUrl := Undefined |}.

(** The stored document; [thumbUrl] is [null] when absent, and [createdAt]
    is always the server-timestamp sentinel. *)
Inductive Sentinel := serverTimestamp.

Record Doc := {
  roomId : Value;
  title : Value;
  externalUrl : Value;
  thumbUrl : option Value;
  createdAt : Sentinel
}.

Inductive Json :=
| ErrorBody (error : string)
| Created (id : string) (doc : Doc).

Record Response := { status : nat; json : Json }.

(** The answer to the HEAD request: [fetch] rejected (turned into [null]),
    or a response with its [ok] flag and status. *)
Inductive Head :=
| NoResponse
| HeadResponse (ok : bool) (head_status : nat).

Record Platform := { head : Head; add : Outcome string }.

(** What the handler did besides answering: the URLs it sent a HEAD
    request to, its log lines, and the documents added to the
    "experiences" collection. *)
Record Effects := {
  head_requests : list string;
  warnings : list string;
  errors : list string;
  stored : list Doc
}.

Definition nothing : Effects :=
  {| head_requests := []; warnings := []; errors := []; stored := [] |}.

(** An ASCII letter in lower case; every other character as it is. *)
Definition lower (c : Ascii.ascii) : Ascii.ascii :=
  let n := Ascii.nat_of_ascii c in
  if Nat.leb 65 n && Nat.leb n 90 then Ascii.ascii_of_nat (n + 32) else c.

Fixpoint to_lower (s : string) : string :=
  match s with
  | EmptyString => EmptyString
  | String c rest => String (lower c) (to_lower rest)
  end.

(** Does [s] begin with the lower-case pattern [p], letter case ignored? *)
Fixpoint starts_with (p s : string) : bool :=
  match p, s with
  | EmptyString, _ => true
  | String a p', String b s' => bool_decide (a = lower b) && starts_with p' s'
  | String _ _, EmptyString => false
  end.

(** [/^https?:\/\//i.test(url)] *)
Definition scheme_ok (text : string) : bool :=
  starts_with "http://" text || starts_with "https://" text.

Definition respond (code : nat) (j : Json) (e : Effects) : Response * Effects :=
  ({| status := code; json := j |}, e).

Definition ingestMyWebAR (p : Platform) (req : Request) : Response * Effects :=
  if negb (bool_decide (method req = "POST"))
  then respond 405 (ErrorBody "Method not allowed") nothing
  else
    let b := default empty_body (body req) in
    if negb (truthy (body_roomId b)) || negb (truthy (body_url b))
    then respond 400 (ErrorBody "roomId and url are required") nothing
    else if negb (scheme_ok (to_text (body_url b)))
    then respond 400 (ErrorBody "Invalid URL") nothing
    else
      let requests := [to_text (body_url b)] in
      let warned :=
        match head p with
        | HeadResponse true _ => []
        | _ => ["HEAD check failed"]
        end in
      let doc :=
        {| roomId := body_roomId b;
           title := or_else (body_title b) (Str "External AR");
           externalUrl := body_url b;
           thumbUrl := if truthy (body_thumbUrl b)
                       then Some (body_thumbUrl b) else None;
           createdAt := serverTimestamp |} in
      match add p with
      | Resolved id =>
          respond 200 (Created id doc)
            {| head_requests := requests; warnings := warned;
               errors := []; stored := [doc] |}
      | Rejected _ =>
          respond 500 (ErrorBody "Internal error")
            {| head_requests := requests; warnings := warned;
               errors := ["ingestMyWebAR failed"]; stored := [] |}
      end.

(** A valid request, and a platform on which every call succeeds. *)
Definition good_request : Request :=
  {| method := "POST";
     body := Some {| body_roomId := Str "atrium";
                     body_url := Str "HTTPS://mywebar.com/p/scene";
                     body_title := Undefined;
                     body_thumbUrl := Str "" |} |}.

Definition platform_up : Platform :=
  {| head := HeadResponse true 200; add := Resolved "doc-1" |}.

(** The document [good_request] asks for. *)
Definition good_document : Doc :=
  {| roomId := Str "atrium"; title := Str "External AR";
     externalUrl := Str "HTTPS://mywebar.com/p/scene";
     thumbUrl := None; createdAt := serverTimestamp |}.

(** A POST whose url has another scheme. *)
Definition bad_scheme_request : Request :=
  {| method := "POST";
     body := Some {| body_roomId := Str "atrium";
                     body_url := Str "ftp://mywebar.com/p/scene";
                     body_title := Str "Scene";
                     body_thumbUrl := Undefined |} |}.

End Ingest.

(** * Visits to the scan screen *)

Module ScanVisit.
Import Scanner.



(** Frames of which two decode, timers, and leaving the screen. *)
Definition two_codes : list Event :=
  [ Frame NoCode; Frame (Code "https://example.org/a");
    Frame (Code "https://example.org/b"); Timeout; Cleanup; Timeout ].


End ScanVisit.

(** * The recorder on screen

    What the recorder renders, its remaining handlers (the mode buttons,
    Re-record, save, download), and the component driven through its
    buttons. *)

Module RecorderUI.
Import Recorder.

(** [canToggleMode] *)
Definition canToggleMode (w : World) : bool := negb (isRecording (hooks w)).

(** The mode buttons: [onClick={() => canToggleMode && setMode(m)}]. *)
Definition chooseMode (m : Mode) (w : World) : World :=
  if canToggleMode w then with_hooks (setMode m) w else w.

(** The Re-record button: [stop(); resetRecording();]. *)
Definition rerecord (w : World) : World := resetRecording (stop w).

(** The buttons that come and go with the state. *)
Inductive Control :=
| StartButton
| PauseButton
| ResumeButton
| StopButton
| RerecordButton
| DownloadButton
| SaveButton.

(** Is the control rendered? *)
Definition shown (w : World) (c : Control) : bool :=
  let recording := isRecording (hooks w) in
  let has_url := bool_decide (blobUrl (hooks w) <> None) in
  match c with
  | StartButton => negb recording && negb has_url
  | PauseButton => recording && negb (isPaused (hooks w))
  | ResumeButton => recording && isPaused (hooks w)
  | StopButton => recording
  | RerecordButton | DownloadButton | SaveButton => negb recording && has_url
  end.

(** What can happen to the mounted component: a press of a button, which
    reaches its handler only when the button is rendered, or an event from
    the browser. *)
Inductive Input :=
| PressStart (env : StartEnv)
| PressPause
| PressResume
| PressStop
| PressRerecord
| PressMode (m : Mode)
| Second
| Chunk (data : option Blob)
| RecorderStopped (final : option Blob).

Definition press (c : Control) (handler : World -> World) (w : World) : World :=
  if shown w c then handler w else w.

Definition react (w : World) (i : Input) : World :=
  match i with
  | PressStart env => press StartButton (start env) w
  | PressPause => press PauseButton pause w
  | PressResume => press ResumeButton resume w
  | PressStop => press StopButton stop w
  | PressRerecord => press RerecordButton rerecord w
  | PressMode m => chooseMode m w
  | Second => tick w
  | Chunk d => deliver_data d w
  | RecorderStopped f => deliver_stop f w
  end.

Definition drive (w : World) (inputs : list Input) : World :=
  foldl react w inputs.

(** ** save and download *)

(** A document of the "clips" collection; [createdAt] is always the
    server-timestamp sentinel and is left out. *)
Record Clip := { clip_roomId : string; clip_type : string; clip_url : string }.

(** The recorder with its props and what its save and download handlers
    reach: the [saving] flag, the storage bucket (path and blob of every
    finished upload, oldest first), the clips collection, the calls of
    [onDone], and the files offered for download (name and object URL). *)
Record Page := {
  recorder : World;
  roomId : string;
  has_onDone : bool;
  saving : bool;
  bucket : list (string * Blob);
  clips : list Clip;
  done : list (string * string);
  downloads : list (string * nat)
}.

Definition with_recorder (f : World -> World) (p : Page) : Page :=
  {| recorder := f (recorder p); roomId := roomId p;
     has_onDone := has_onDone p; saving := saving p; bucket := bucket p;
     clips := clips p; done := done p; downloads := downloads p |}.
Definition setSaving (b : bool) (p : Page) : Page :=
  {| recorder := recorder p; roomId := roomId p;
     has_onDone := has_onDone p; saving := b; bucket := bucket p;
     clips := clips p; done := done p; downloads := downloads p |}.
Definition stored_in_bucket (path : string) (b : Blob) (p : Page) : Page :=
  {| recorder := recorder p; roomId := roomId p;
     has_onDone := has_onDone p; saving := saving p;
     bucket := bucket p ++ [(path, b)];
     clips := clips p; done := done p; downloads := downloads p |}.
Definition added_clip (c : Clip) (p : Page) : Page :=
  {| recorder := recorder p; roomId := roomId p;
     has_onDone := has_onDone p; saving := saving p; bucket := bucket p;
     clips := clips p ++ [c]; done := done p; downloads := downloads p |}.
(** [onDone?.({ type, url })] *)
Definition call_onDone (ty url : string) (p : Page) : Page :=
  if has_onDone p
  then {| recorder := recorder p; roomId := roomId p;
          has_onDone := has_onDone p; saving := saving p; bucket := bucket p;
          clips := clips p; done := done p ++ [(ty, url)];
          downloads := downloads p |}
  else p.
Definition offered (name : string) (href : nat) (p : Page) : Page :=
  {| recorder := recorder p; roomId := roomId p;
     has_onDone := has_onDone p; saving := saving p; bucket := bucket p;
     clips := clips p; done := done p;
     downloads := downloads p ++ [(name, href)] |}.

(** What the platform answers during one call of [save]: the clock, and
    the three awaited calls. *)
Record SaveEnv := {
  now : N;
  uploadBytes : Outcome unit;
  getDownloadURL : Outcome string;
  addDoc : Outcome unit
}.

(** [mode === "video" && blob.type.startsWith("video")] *)
Definition isVideo (m : Mode) (b : Blob) : bool :=
  bool_decide (m = video) && String.prefix "video" (type b).

Definition kind_label (is_video : bool) : string :=
  if is_video then "video" else "audio".

(** The [catch (e)] of [save]. *)
Definition save_failed (msg : string) (p : Page) : Page :=
  with_recorder (with_browser (alert ("Failed to save: " +:+ msg))) p.

(** [save], taken as one step. *)
Definition save (env : SaveEnv) (p : Page) : Page :=
  match blob (hooks (recorder p)) with
  | None => p
  | Some b =>
      let p := setSaving true p in
      let is_video := isVideo (mode (hooks (recorder p))) b in
      let basePath := if is_video then "videos" else "audio" in
      let ext := "webm" in
      let path := "rooms/" +:+ roomId p +:+ "/" +:+ basePath +:+ "/" +:+
                  pretty (now env) +:+ "-recording." +:+ ext in
      let p :=
        match uploadBytes env with
        | Rejected msg => save_failed msg p
        | Resolved _ =>
            let p := stored_in_bucket path b p in
            match getDownloadURL env with
            | Rejected msg => save_failed msg p
            | Resolved url =>
                match addDoc env with
                | Rejected msg => save_failed msg p
                | Resolved _ =>
                    let p := added_clip
                               {| clip_roomId := roomId p;
                                  clip_type := kind_label is_video;
                                  clip_url := url |} p in
                    call_onDone (kind_label is_video) url p
                end
            end
        end in
      (* finally *)
      setSaving false p
  end.

Definition download (clock : N) (p : Page) : Page :=
  match blob (hooks (recorder p)), blobUrl (hooks (recorder p)) with
  | Some b, Some url =>
      let is_video := isVideo (mode (hooks (recorder p))) b in
      let ext := "webm" in
      let name := if is_video
                  then "video-" +:+ pretty clock +:+ "." +:+ ext
                  else "audio-" +:+ pretty clock +:+ "." +:+ ext in
      offered name url p
  | _, _ => p
  end.

(** The recorder as App mounts it for a room. *)
Definition page (room : string) (w : World) : Page :=
  {| recorder := w; roomId := room; has_onDone := true; saving := false;
     bucket := []; clips := []; done := []; downloads := [] |}.

(** ** Vocabulary of the statements *)

(** A call of [start] that fails, if at all, before a stream is acquired. *)
Definition clean (env : StartEnv) : bool :=
  match getUserMedia env with
  | Some _ => true
  | None => bool_decide (construct env = None) &&
            bool_decide (mr_start env = None)
  end.


(** While the component shows a recording: one interval timer, the one in
    [timerRef], whose callback closed over an unpaused render; an active
    recorder, paused exactly when the component says so.  Otherwise: no
    timer, not paused, and no active recorder. *)
Definition timer_in_step (w : World) : Prop :=
  if isRecording (hooks w)
  then exists t mr,
         timerRef (refs w) = Some t /\
         intervals (browser w) = {[ t := false ]} /\
         mediaRecorderRef (refs w) = Some mr /\
         mr_state mr <> inactive /\
         isPaused (hooks w) = bool_decide (mr_state mr = paused)
  else timerRef (refs w) = None /\
       intervals (browser w) = ∅ /\
       isPaused (hooks w) = false /\
       forall mr, mediaRecorderRef (refs w) = Some mr -> mr_state mr = inactive.



(** What the platform answers when every step of [save] succeeds. *)
Definition save_ok : SaveEnv :=
  {| now := 1700000000000; uploadBytes := Resolved tt;
     getDownloadURL := Resolved "https://storage.example/clip";
     addDoc := Resolved tt |}.

End RecorderUI.

(** * The submit form of App

    [ensureRoom], the two file pickers and [handleUpload]. *)

Module Upload.

(** A file chosen in a picker. *)
Record File := { file_name : string; file_bytes : bytes }.

(** The document [handleUpload] adds to the "clips" collection;
    [createdAt] is always the server-timestamp sentinel and is left out.
    [type] and [url] are assigned only on the branch of the file that was
    chosen. *)
Record ClipDoc := {
  doc_roomId : string;
  authorName : string;
  authorEmail : string;
  doc_type : option string;
  doc_url : option string
}.

(** A clip as listed by the query: its id and the fields the page shows. *)
Record Listed := { listed_id : string; listed_type : string; listed_url : string }.

(** The state of the form and what its handlers reach: the alerts shown,
    the URLs given to [history.replaceState], the storage bucket (path and
    file of every finished upload), the documents added, and, when the
    local AR frame is loaded, the lists posted to it. *)
Record Form := {
  roomId : string;
  name : string;
  email : string;
  uploading : bool;
  videoFile : option File;
  glbFile : option File;
  clips : list Listed;
  alerts : list string;
  history : list string;
  bucket : list (string * File);
  collection : list ClipDoc;
  iframe_window : bool;
  posted : list (list Listed)
}.

Definition setRoomId (r : string) (f : Form) : Form :=
  {| roomId := r; name := name f; email := email f; uploading := uploading f;
     videoFile := videoFile f; glbFile := glbFile f; clips := clips f;
     alerts := alerts f; history := history f; bucket := bucket f;
     collection := collection f; iframe_window := iframe_window f;
     posted := posted f |}.
Definition setUploading (b : bool) (f : Form) : Form :=
  {| roomId := roomId f; name := name f; email := email f; uploading := b;
     videoFile := videoFile f; glbFile := glbFile f; clips := clips f;
     alerts := alerts f; history := history f; bucket := bucket f;
     collection := collection f; iframe_window := iframe_window f;
     posted := posted f |}.
Definition setVideoFile (v : option File) (f : Form) : Form :=
  {| roomId := roomId f; name := name f; email := email f;
     uploading := uploading f; videoFile := v; glbFile := glbFile f;
     clips := clips f; alerts := alerts f; history := history f;
     bucket := bucket f; collection := collection f;
     iframe_window := iframe_window f; posted := posted f |}.
Definition setGlbFile (g : option File) (f : Form) : Form :=
  {| roomId := roomId f; name := name f; email := email f;
     uploading := uploading f; videoFile := videoFile f; glbFile := g;
     clips := clips f; alerts := alerts f; history := history f;
     bucket := bucket f; collection := collection f;
     iframe_window := iframe_window f; posted := posted f |}.
Definition setClips (c : list Listed) (f : Form) : Form :=
  {| roomId := roomId f; name := name f; email := email f;
     uploading := uploading f; videoFile := videoFile f; glbFile := glbFile f;
     clips := c; alerts := alerts f; history := history f;
     bucket := bucket f; collection := collection f;
     iframe_window := iframe_window f; posted := posted f |}.
Definition alert (msg : string) (f : Form) : Form :=
  {| roomId := roomId f; name := name f; email := email f;
     uploading := uploading f; videoFile := videoFile f; glbFile := glbFile f;
     clips := clips f; alerts := alerts f ++ [msg]; history := history f;
     bucket := bucket f; collection := collection f;
     iframe_window := iframe_window f; posted := posted f |}.
Definition replaceState (url : string) (f : Form) : Form :=
  {| roomId := roomId f; name := name f; email := email f;
     uploading := uploading f; videoFile := videoFile f; glbFile := glbFile f;
     clips := clips f; alerts := alerts f; history := history f ++ [url];
     bucket := bucket f; collection := collection f;
     iframe_window := iframe_window f; posted := posted f |}.
Definition uploaded (path : string) (file : File) (f : Form) : Form :=
  {| roomId := roomId f; name := name f; email := email f;
     uploading := uploading f; videoFile := videoFile f; glbFile := glbFile f;
     clips := clips f; alerts := alerts f; history := history f;
     bucket := bucket f ++ [(path, file)]; collection := collection f;
     iframe_window := iframe_window f; posted := posted f |}.
Definition added (d : ClipDoc) (f : Form) : Form :=
  {| roomId := roomId f; name := name f; email := email f;
     uploading := uploading f; videoFile := videoFile f; glbFile := glbFile f;
     clips := clips f; alerts := alerts f; history := history f;
     bucket := bucket f; collection := collection f ++ [d];
     iframe_window := iframe_window f; posted := posted f |}.

(** [postToAR]: posts only when the frame has a content window. *)
Definition postToAR (next : list Listed) (f : Form) : Form :=
  if iframe_window f
  then {| roomId := roomId f; name := name f; email := email f;
          uploading := uploading f; videoFile := videoFile f;
          glbFile := glbFile f; clips := clips f; alerts := alerts f;
          history := history f; bucket := bucket f;
          collection := collection f; iframe_window := iframe_window f;
          posted := posted f ++ [next] |}
  else f.

(** The video picker's [onChange], given [e.target.files?.[0]]. *)
Definition pickVideo (file : option File) (f : Form) : Form :=
  setGlbFile None (setVideoFile file f).

(** The GLB picker's [onChange]. *)
Definition pickGlb (file : option File) (f : Form) : Form :=
  setVideoFile None (setGlbFile file f).

(** [videoClips]: [clips.filter((c) => c.type === "video")] *)
Definition videoClips (f : Form) : list Listed :=
  filter (fun c => listed_type c = "video") (clips f).

(** What the platform answers during one call of [handleUpload]. *)
Record UploadEnv := {
  now : N;
  uploadBytes : Outcome unit;
  getDownloadURL : Outcome string;
  addDoc : Outcome unit;
  getDocs : Outcome (list Listed)
}.

Section WithTrim.

(** [String.prototype.trim] *)
Variable trim : string -> string.

(** [ensureRoom]; [encodeURIComponent("demo-room")] is ["demo-room"]. *)
Definition ensureRoom (f : Form) : string * Form :=
  if bool_decide (trim (roomId f) = "")
  then
    let fallback := "demo-room" in
    let f := setRoomId fallback f in
    let f := replaceState ("/?room=" +:+ fallback) f in
    (fallback, f)
  else (trim (roomId f), f).

(** The [catch (e)] of [handleUpload]. *)
Definition upload_failed (msg : string) (f : Form) : Form :=
  alert ("Upload failed: " +:+ msg) f.

(** The steps of [handleUpload] after the document has its type and url. *)
Definition add_and_refresh (env : UploadEnv) (rid : string) (doc : ClipDoc)
    (f : Form) : Form :=
  match addDoc env with
  | Rejected msg => upload_failed msg f
  | Resolved _ =>
      let f := added doc f in
      let f := alert "Uploaded!" f in
      let f := setVideoFile None f in
      let f := setGlbFile None f in
      match getDocs env with
      | Rejected msg => upload_failed msg f
      | Resolved next =>
          let f := setClips next f in
          postToAR next f
      end
  end.

(** One branch of [handleUpload]: upload the file into [folder], then give
    the document its [type] and [url]. *)
Definition upload_file (env : UploadEnv) (rid folder type : string)
    (file : File) (doc : ClipDoc) (f : Form) : Form :=
  let path := "rooms/" +:+ rid +:+ "/" +:+ folder +:+ "/" +:+
              pretty (now env) +:+ "-" +:+ file_name file in
  match uploadBytes env with
  | Rejected msg => upload_failed msg f
  | Resolved _ =>
      let f := uploaded path file f in
      match getDownloadURL env with
      | Rejected msg => upload_failed msg f
      | Resolved url =>
          add_and_refresh env rid
            {| doc_roomId := doc_roomId doc; authorName := authorName doc;
               authorEmail := authorEmail doc; doc_type := Some type;
               doc_url := Some url |} f
      end
  end.

(** [handleUpload], taken as one step. *)
Definition handleUpload (env : UploadEnv) (f : Form) : Form :=
  let (rid, f) := ensureRoom f in
  if bool_decide (name f = "") || bool_decide (email f = "")
  then alert "Add your name and email." f
  else
    match videoFile f, glbFile f with
    | None, None => alert "Select a video or a GLB." f
    | v, g =>
        let f := setUploading true f in
        let doc := {| doc_roomId := rid; authorName := name f;
                      authorEmail := email f; doc_type := None;
                      doc_url := None |} in
        let f :=
          match v, g with
          | Some file, _ => upload_file env rid "videos" "video" file doc f
          | None, Some file => upload_file env rid "glb" "glb" file doc f
          | None, None => add_and_refresh env rid doc f
          end in
        (* finally *)
        setUploading false f
    end.

End WithTrim.

(** ** Vocabulary of the statements *)

(** What the user does between uploads. *)
Inductive Edit :=
| TypeRoom (s : string)
| TypeName (s : string)
| TypeEmail (s : string)
| PickVideo (file : option File)
| PickGlb (file : option File)
| PressUpload (env : UploadEnv).

Definition setName (s : string) (f : Form) : Form :=
  {| roomId := roomId f; name := s; email := email f;
     uploading := uploading f; videoFile := videoFile f; glbFile := glbFile f;
     clips := clips f; alerts := alerts f; history := history f;
     bucket := bucket f; collection := collection f;
     iframe_window := iframe_window f; posted := posted f |}.
Definition setEmail (s : string) (f : Form) : Form :=
  {| roomId := roomId f; name := name f; email := s;
     uploading := uploading f; videoFile := videoFile f; glbFile := glbFile f;
     clips := clips f; alerts := alerts f; history := history f;
     bucket := bucket f; collection := collection f;
     iframe_window := iframe_window f; posted := posted f |}.

Definition edit (trim : string -> string) (f : Form) (e : Edit) : Form :=
  match e with
  | TypeRoom s => setRoomId s f
  | TypeName s => setName s f
  | TypeEmail s => setEmail s f
  | PickVideo file => pickVideo file f
  | PickGlb file => pickGlb file f
  | PressUpload env => handleUpload trim env f
  end.

(** The file [handleUpload] sends, with its storage folder and the type
    written into the document: the video when there is one, else the
    GLB. *)
Definition chosen (f : Form) : option (string * string * File) :=
  match videoFile f, glbFile f with
  | Some file, _ => Some ("videos", "video", file)
  | None, Some file => Some ("glb", "glb", file)
  | None, None => None
  end.

(** A document with every field filled in. *)
Definition complete (d : ClipDoc) : Prop :=
  doc_roomId d <> "" /\ authorName d <> "" /\ authorEmail d <> "" /\
  (doc_type d = Some "video" \/ doc_type d = Some "glb") /\
  doc_url d <> None.

(** The form as first shown for the room of the page's address. *)
Definition blank (room : string) : Form :=
  {| roomId := room; name := ""; email := ""; uploading := false;
     videoFile := None; glbFile := None; clips := []; alerts := [];
     history := []; bucket := []; collection := []; iframe_window := false;
     posted := [] |}.

(** Removes leading and trailing spaces; stands in for [trim] in
    examples. *)
Fixpoint drop_spaces (s : string) : string :=
  match s with
  | String c rest => if Ascii.eqb c (Ascii.ascii_of_nat 32) then drop_spaces rest else s
  | EmptyString => s
  end.

Definition trim_spaces (s : string) : string :=
  String.rev (drop_spaces (String.rev (drop_spaces s))).

Definition upload_ok : UploadEnv :=
  {| now := 1700000000000; uploadBytes := Resolved tt;
     getDownloadURL := Resolved "https://storage.example/file";
     addDoc := Resolved tt;
     getDocs := Resolved [ {| listed_id := "c1"; listed_type := "video";
                              listed_url := "https://storage.example/file" |} ] |}.

Definition a_video : File := {| file_name := "walk.mp4"; file_bytes := [] |}.
Definition a_model : File := {| file_name := "chair.glb"; file_bytes := [] |}.

(** A filled-in form with a video chosen after a GLB. *)
Definition filled : Form :=
  foldl (edit trim_spaces) (blank "  ")
    [ TypeName "Sakshi"; TypeEmail "s@example.com";
      PickGlb (Some a_model); PickVideo (Some a_video) ].

(** The same edits followed by a successful upload, and the document that
    upload adds. *)
Definition upload_session : list Edit :=
  [ TypeName "Sakshi"; TypeEmail "s@example.com";
    PickGlb (Some a_model); PickVideo (Some a_video); PressUpload upload_ok ].

Definition uploaded_document : ClipDoc :=
  {| doc_roomId := "demo-room"; authorName := "Sakshi";
     authorEmail := "s@example.com"; doc_type := Some "video";
     doc_url := Some "https://storage.example/file" |}.

End Upload.

(** * The voice-note recorder

    The audio-only recorder of src/AudioRecorder.jsx: start, stop, the
    unmount cleanup, the recorder's handlers and the Re-record button. *)

Module VoiceNote.

(** The component and the browser around it.  The recorder in
    [mediaRecorderRef] is given by the stream it records; it is put there
    started and taken out when stopped, so it is never inactive while in
    the ref.  [finishing] says that a recorder was stopped and its last two
    events are still to come; [timers] are the running interval timers,
    every one of them the plain [setSeconds((s) => s + 1)]. *)
Record World := {
  recording : bool;
  seconds : nat;
  blobUrl : option nat;
  blob : option Recorder.Blob;
  mediaRecorderRef : option nat;
  chunksRef : list Recorder.Blob;
  timerRef : option nat;
  finishing : bool;
  live : gset nat;
  next_stream : nat;
  timers : gset nat;
  next_timer : nat;
  next_url : nat
}.

(** What the platform answers during one call of [start]. *)
Record StartEnv := {
  getUserMedia_ok : bool;
  construct_ok : bool;
  start_ok : bool
}.

(** [start], taken as one step.  It has no try/catch: a rejection or an
    exception ends it where it happens. *)
Definition start (env : StartEnv) (w : World) : World :=
  if getUserMedia_ok env
  then
    let stream := next_stream w in
    let acquired := {[ stream ]} ∪ live w in
    if construct_ok env
    then
      if start_ok env
      then
        {| recording := true; seconds := 0; blobUrl := blobUrl w;
           blob := blob w; mediaRecorderRef := Some stream; chunksRef := [];
           timerRef := Some (next_timer w); finishing := finishing w;
           live := acquired; next_stream := S stream;
           timers := {[ next_timer w ]} ∪ timers w;
           next_timer := S (next_timer w); next_url := next_url w |}
      else
        {| recording := recording w; seconds := seconds w;
           blobUrl := blobUrl w; blob := blob w;
           mediaRecorderRef := mediaRecorderRef w; chunksRef := [];
           timerRef := timerRef w; finishing := finishing w;
           live := acquired; next_stream := S stream; timers := timers w;
           next_timer := next_timer w; next_url := next_url w |}
    else
      {| recording := recording w; seconds := seconds w;
         blobUrl := blobUrl w; blob := blob w;
         mediaRecorderRef := mediaRecorderRef w; chunksRef := chunksRef w;
         timerRef := timerRef w; finishing := finishing w;
         live := acquired; next_stream := S stream; timers := timers w;
         next_timer := next_timer w; next_url := next_url w |}
  else w.

(** [clearInterval(timerRef.current)] *)
Definition clear (t : option nat) (running : gset nat) : gset nat :=
  match t with
  | Some id => running ∖ {[ id ]}
  | None => running
  end.

Definition stop (w : World) : World :=
  let stopped :=
    match mediaRecorderRef w with
    | Some stream => recording w
    | None => false
    end in
  {| recording := false; seconds := seconds w; blobUrl := blobUrl w;
     blob := blob w;
     mediaRecorderRef := if stopped then None else mediaRecorderRef w;
     chunksRef := chunksRef w; timerRef := None;
     finishing := if stopped then true else finishing w;
     live := match mediaRecorderRef w with
             | Some stream => if recording w then live w ∖ {[ stream ]}
                              else live w
             | None => live w
             end;
     next_stream := next_stream w;
     timers := clear (timerRef w) (timers w);
     next_timer := next_timer w; next_url := next_url w |}.

(** The cleanup of the mount effect. *)
Definition unmount (w : World) : World :=
  {| recording := recording w; seconds := seconds w; blobUrl := blobUrl w;
     blob := blob w; mediaRecorderRef := mediaRecorderRef w;
     chunksRef := chunksRef w; timerRef := timerRef w;
     finishing := finishing w;
     live := match mediaRecorderRef w with
             | Some stream => live w ∖ {[ stream ]}
             | None => live w
             end;
     next_stream := next_stream w;
     timers := clear (timerRef w) (timers w);
     next_timer := next_timer w; next_url := next_url w |}.

(** One second passes: every running timer adds one. *)
Definition tick (w : World) : World :=
  {| recording := recording w; seconds := seconds w + size (timers w);
     blobUrl := blobUrl w; blob := blob w;
     mediaRecorderRef := mediaRecorderRef w; chunksRef := chunksRef w;
     timerRef := timerRef w; finishing := finishing w; live := live w;
     next_stream := next_stream w; timers := timers w;
     next_timer := next_timer w; next_url := next_url w |}.

(** [mr.ondataavailable] *)
Definition ondataavailable (data : option Recorder.Blob) (w : World) : World :=
  match data with
  | Some d =>
      if bool_decide (0 < Recorder.size d)
      then
        {| recording := recording w; seconds := seconds w;
           blobUrl := blobUrl w; blob := blob w;
           mediaRecorderRef := mediaRecorderRef w;
           chunksRef := chunksRef w ++ [d]; timerRef := timerRef w;
           finishing := finishing w; live := live w;
           next_stream := next_stream w; timers := timers w;
           next_timer := next_timer w; next_url := next_url w |}
      else w
  | None => w
  end.

(** [mr.onstop] *)
Definition onstop (w : World) : World :=
  {| recording := recording w; seconds := seconds w;
     blobUrl := Some (next_url w);
     blob := Some (Recorder.new_Blob (chunksRef w) "audio/webm");
     mediaRecorderRef := mediaRecorderRef w; chunksRef := chunksRef w;
     timerRef := timerRef w; finishing := finishing w; live := live w;
     next_stream := next_stream w; timers := timers w;
     next_timer := next_timer w; next_url := S (next_url w) |}.

(** A timeslice chunk arrives from the recorder in the ref. *)
Definition deliver_data (data : option Recorder.Blob) (w : World) : World :=
  match mediaRecorderRef w with
  | Some _ => ondataavailable data w
  | None => w
  end.

(** The browser finishes a [stop()]: the last chunk, then the stop
    event. *)
Definition deliver_stop (final : option Recorder.Blob) (w : World) : World :=
  if finishing w
  then
    let w := onstop (ondataavailable final w) in
    {| recording := recording w; seconds := seconds w; blobUrl := blobUrl w;
       blob := blob w; mediaRecorderRef := mediaRecorderRef w;
       chunksRef := chunksRef w; timerRef := timerRef w; finishing := false;
       live := live w; next_stream := next_stream w; timers := timers w;
       next_timer := next_timer w; next_url := next_url w |}
  else w.

(** The Re-record button: [setBlob(null); setBlobUrl(null);]. *)
Definition rerecord (w : World) : World :=
  {| recording := recording w; seconds := seconds w; blobUrl := None;
     blob := None; mediaRecorderRef := mediaRecorderRef w;
     chunksRef := chunksRef w; timerRef := timerRef w;
     finishing := finishing w; live := live w;
     next_stream := next_stream w; timers := timers w;
     next_timer := next_timer w; next_url := next_url w |}.

(** What can happen to the mounted component; a button reaches its handler
    only while it is rendered. *)
Inductive Input :=
| PressStart (env : StartEnv)
| PressStop
| PressRerecord
| Second
| Chunk (data : option Recorder.Blob)
| RecorderStopped (final : option Recorder.Blob).

Definition react (w : World) (i : Input) : World :=
  match i with
  | PressStart env =>
      if negb (recording w) && bool_decide (blobUrl w = None)
      then start env w else w
  | PressStop => if recording w then stop w else w
  | PressRerecord =>
      if bool_decide (blobUrl w <> None) && negb (recording w)
      then rerecord w else w
  | Second => tick w
  | Chunk d => deliver_data d w
  | RecorderStopped f => deliver_stop f w
  end.

Definition drive (w : World) (inputs : list Input) : World :=
  foldl react w inputs.

Definition mounted : World :=
  {| recording := false; seconds := 0; blobUrl := None; blob := None;
     mediaRecorderRef := None; chunksRef := []; timerRef := None;
     finishing := false; live := ∅; next_stream := 0; timers := ∅;
     next_timer := 0; next_url := 0 |}.

(** ** Vocabulary of the statements *)

(** A call of [start] that fails, if at all, before a stream is
    acquired. *)
Definition clean (i : Input) : bool :=
  match i with
  | PressStart env =>
      negb (getUserMedia_ok env) || (construct_ok env && start_ok env)
  | _ => true
  end.


(** The events between start and stop. *)
Definition session_input (i : Input) : bool :=
  match i with
  | Second | Chunk _ => true
  | _ => false
  end.

Fixpoint seconds_passed (inputs : list Input) : nat :=
  match inputs with
  | [] => 0
  | Second :: rest => S (seconds_passed rest)
  | _ :: rest => seconds_passed rest
  end.

(** The bytes a trace delivers, in arrival order. *)
Fixpoint bytes_delivered (inputs : list Input) : bytes :=
  match inputs with
  | [] => []
  | Chunk (Some d) :: rest => Recorder.payload d ++ bytes_delivered rest
  | _ :: rest => bytes_delivered rest
  end.

Definition granted : StartEnv :=
  {| getUserMedia_ok := true; construct_ok := true; start_ok := true |}.


Definition a_note : list Input :=
  [ Second; Chunk (Some (Recorder.chunk [Byte.x01])); Chunk None; Second;
    Chunk (Some (Recorder.chunk [])) ].

End VoiceNote.

(** * Properties of the recorder *)

Module RecorderFacts.
Import Recorder.

(** ** Codec negotiation *)

Lemma pick_from_first rt cs :
  match pick_from rt cs with
  | Some t =>
      exists before after,
        cs = before ++ t :: after /\
        supported rt t = true /\
        Forall (unsupported rt) before
  | None => Forall (unsupported rt) cs
  end.
Proof.
  induction cs as [|c cs IH]; simpl.
  - constructor.
  - destruct (supported rt c) eqn:Hc.
    + exists [], cs. repeat split; [assumption | constructor].
    + destruct (pick_from rt cs) as [t|].
      * destruct IH as (before & after & -> & Ht & Hb).
        exists (c :: before), after. repeat split; [assumption|].
        constructor; assumption.
      * constructor; assumption.
Qed.

(** C7. For either capture kind, pickMimeType returns the first entry of
    that kind's preference list that the runtime reports as supported
    (every entry before it is reported unsupported); when no entry is
    supported it returns undefined, the platform default.  It is a total
    function: there is no runtime for which it fails. *)
Theorem pickMimeType_first_supported (rt : Runtime) (kind : Mode) :
  match pickMimeType rt kind with
  | Some t =>
      exists before after,
        candidates kind = before ++ t :: after /\
        supported rt t = true /\
        Forall (unsupported rt) before
  | None => Forall (unsupported rt) (candidates kind)
  end.
Proof. apply pick_from_first. Qed.

(** A runtime without MediaRecorder, or without isTypeSupported, gets the
    platform default. *)
Lemma pickMimeType_no_MediaRecorder rt kind :
  has_MediaRecorder rt = false \/ isTypeSupported rt = None ->
  pickMimeType rt kind = None.
Proof.
  intros H.
  assert (Hs : forall t, supported rt t = false).
  { intros t. unfold supported.
    destruct H as [-> | ->]; [reflexivity | apply andb_false_r]. }
  unfold pickMimeType.
  induction (candidates kind) as [|c cs IH]; simpl; [reflexivity|].
  rewrite Hs. exact IH.
Qed.

(** ** pause and resume *)

(** C10. pause() when there is no recorder, or when the recorder is not
    recording, returns the world it was given: recorder state, chunks,
    timer, seconds and the paused flag are all unchanged.  The same holds
    for resume() when there is no recorder or it is not paused. *)
Theorem pause_resume_out_of_state (w : World) :
  ((forall mr, mediaRecorderRef (refs w) = Some mr -> mr_state mr <> recording) ->
   pause w = w) /\
  ((forall mr, mediaRecorderRef (refs w) = Some mr -> mr_state mr <> paused) ->
   resume w = w).
Proof.
  split; intros H.
  - unfold pause.
    destruct (mediaRecorderRef (refs w)) as [mr|] eqn:Hmr; [|reflexivity].
    specialize (H mr eq_refl).
    destruct (mr_state mr); [reflexivity | contradiction | reflexivity].
  - unfold resume.
    destruct (mediaRecorderRef (refs w)) as [mr|] eqn:Hmr; [|reflexivity].
    specialize (H mr eq_refl).
    destruct (mr_state mr); [reflexivity | reflexivity | contradiction].
Qed.

Lemma pause_resume_out_of_state_witness :
  pause (mounted video) = mounted video /\
  pause stopped_audio = stopped_audio /\
  resume stopped_audio = stopped_audio.
Proof.
  split; [|split].
  - apply (proj1 (pause_resume_out_of_state (mounted video))).
    intros mr Hmr. discriminate Hmr.
  - apply (proj1 (pause_resume_out_of_state stopped_audio)).
    intros mr Hmr. vm_compute in Hmr. injection Hmr as <-. discriminate.
  - apply (proj2 (pause_resume_out_of_state stopped_audio)).
    intros mr Hmr. vm_compute in Hmr. injection Hmr as <-. discriminate.
Defined.

(** ** stop *)

Lemma stop_clears w :
  isRecording (hooks (stop w)) = false /\
  isPaused (hooks (stop w)) = false /\
  timerRef (refs (stop w)) = None /\
  streamRef (refs (stop w)) = None.
Proof.
  unfold stop.
  destruct w as [h [m c s v t] b]; simpl.
  destruct m as [mr|]; simpl; destruct (isRecording h); simpl;
    destruct s as [id|]; simpl; destruct v as [el|]; simpl; auto.
Qed.

(** The state [stop] leaves behind is one it does not change. *)
Lemma stop_fixes (w : World) :
  isRecording (hooks w) = false ->
  isPaused (hooks w) = false ->
  timerRef (refs w) = None ->
  streamRef (refs w) = None ->
  match liveVideoRef (refs w) with
  | Some el => el = {| srcObject := None; playing := false |}
  | None => True
  end ->
  stop w = w.
Proof.
  destruct w as [[m ir ip s bu bl] [mr c sr v t] b]; simpl.
  intros -> -> -> -> Hv.
  unfold stop; simpl.
  destruct mr as [mr|]; simpl; destruct v as [el|]; simpl;
    try rewrite Hv; reflexivity.
Qed.

Lemma stop_liveVideo w :
  match liveVideoRef (refs (stop w)) with
  | Some el => el = {| srcObject := None; playing := false |}
  | None => True
  end.
Proof.
  unfold stop.
  destruct w as [h [m c s v t] b]; simpl.
  destruct m as [mr|]; simpl; destruct (isRecording h); simpl;
    destruct s as [id|]; simpl; destruct v as [el|]; simpl; auto.
Qed.

(** C6. stop() is idempotent.  Calling stop() on the state a stop() left
    behind changes nothing and does not throw, before as well as after the
    recorder's final events have produced the artifact; so the finished
    blob, the timer and every other field are the same after the second
    call. *)
Theorem stop_idempotent (w : World) (final : option Blob) :
  stop (stop w) = stop w /\
  stop_throws (stop w) = false /\
  stop (deliver_stop final (stop w)) = deliver_stop final (stop w) /\
  stop_throws (deliver_stop final (stop w)) = false /\
  blob (hooks (stop (deliver_stop final (stop w)))) =
    blob (hooks (deliver_stop final (stop w))).
Proof.
  destruct (stop_clears w) as (Hr & Hp & Ht & Hs).
  pose proof (stop_liveVideo w) as Hv.
  assert (H1 : stop (stop w) = stop w) by (apply stop_fixes; assumption).
  assert (H2 : stop (deliver_stop final (stop w)) = deliver_stop final (stop w)).
  { apply stop_fixes; unfold deliver_stop;
      destruct (mediaRecorderRef (refs (stop w))) as [mr|]; try assumption;
      destruct (mr_stopping mr); try assumption;
      destruct final as [d|]; simpl; try assumption;
      destruct (bool_decide (0 < size d)); simpl; assumption. }
  repeat split.
  - exact H1.
  - unfold stop_throws.
    destruct (mediaRecorderRef (refs (stop w))); [|reflexivity].
    rewrite Hr. reflexivity.
  - exact H2.
  - unfold stop_throws.
    destruct (mediaRecorderRef (refs (deliver_stop final (stop w)))) eqn:E;
      [|reflexivity].
    replace (isRecording (hooks (deliver_stop final (stop w)))) with false;
      [reflexivity|].
    symmetry. unfold deliver_stop.
    destruct (mediaRecorderRef (refs (stop w))) as [mr|]; try assumption.
    destruct (mr_stopping mr); try assumption.
    destruct final as [d|]; simpl; try assumption.
    destruct (bool_decide (0 < size d)); simpl; assumption.
  - rewrite H2. reflexivity.
Qed.

(** ** The elapsed-time counter *)

Lemma start_installs_timer env w :
  getUserMedia env = None -> construct env = None -> mr_start env = None ->
  intervals (browser w) = ∅ ->
  intervals (browser (start env w)) =
    {[ next_timer (browser w) := isPaused (hooks w) ]} /\
  seconds (hooks (start env w)) = 0.
Proof.
  intros Hg Hc Hs Hi. unfold start. rewrite Hg, Hc, Hs.
  destruct w as [[m ir ip sec bu bl] [mr c sr v t] b]; simpl in *.
  destruct bu as [u|], m, v as [el|]; simpl; rewrite Hi; split; reflexivity.
Qed.

Lemma tick_single w t captured :
  intervals (browser w) = {[ t := captured ]} ->
  seconds (hooks (tick w)) = interval_callback captured (seconds (hooks w)) /\
  browser (tick w) = browser w.
Proof.
  intros Hi. unfold tick; simpl. rewrite Hi, map_fold_singleton.
  split; reflexivity.
Qed.

Lemma pause_browser w : browser (pause w) = browser w.
Proof.
  unfold pause. destruct (mediaRecorderRef (refs w)) as [mr|]; [|reflexivity].
  destruct (mr_state mr); reflexivity.
Qed.

Lemma resume_browser w : browser (resume w) = browser w.
Proof.
  unfold resume. destruct (mediaRecorderRef (refs w)) as [mr|]; [|reflexivity].
  destruct (mr_state mr); reflexivity.
Qed.

Lemma pause_seconds w : seconds (hooks (pause w)) = seconds (hooks w).
Proof.
  unfold pause. destruct (mediaRecorderRef (refs w)) as [mr|]; [|reflexivity].
  destruct (mr_state mr); reflexivity.
Qed.

Lemma resume_seconds w : seconds (hooks (resume w)) = seconds (hooks w).
Proof.
  unfold resume. destruct (mediaRecorderRef (refs w)) as [mr|]; [|reflexivity].
  destruct (mr_state mr); reflexivity.
Qed.

(** The interval callback of a session started from an unpaused render
    closed over [isPaused = false] for good: whatever pause() and resume()
    do in between, every tick adds one. *)
Lemma seconds_counts_every_tick (es : list Event) :
  forall w t,
    intervals (browser w) = {[ t := false ]} ->
    forallb timer_event es = true ->
    seconds (hooks (run w es)) = seconds (hooks w) + ticks es.
Proof.
  induction es as [|e es IH]; intros w t Hi Hes; simpl.
  - lia.
  - simpl in Hes. apply andb_prop in Hes as [He Hes].
    destruct e; try discriminate He; simpl.
    + rewrite (IH (pause w) t); [ | rewrite pause_browser | ]; try assumption.
      rewrite pause_seconds. reflexivity.
    + rewrite (IH (resume w) t); [ | rewrite resume_browser | ]; try assumption.
      rewrite resume_seconds. reflexivity.
    + destruct (tick_single w t false Hi) as [Hs Hb].
      rewrite (IH (tick w) t); [ | rewrite Hb | ]; try assumption.
      rewrite Hs. unfold interval_callback. lia.
Qed.

(** X23. After a successful start() from an unpaused render with no other
    timer running, whatever pause(), resume() and ticks follow, the counter
    shows the number of ticks delivered, those delivered while paused
    included. *)
Lemma every_tick_counts_after_start env w es :
  getUserMedia env = None -> construct env = None -> mr_start env = None ->
  intervals (browser w) = ∅ ->
  isPaused (hooks w) = false ->
  forallb timer_event es = true ->
  seconds (hooks (run w (Start env :: es))) = ticks es.
Proof.
  intros Hg Hc Hs Hi Hp Hes.
  destruct (start_installs_timer env w Hg Hc Hs Hi) as [Ht H0].
  rewrite Hp in Ht.
  change (run w (Start env :: es)) with (run (start env w) es).
  rewrite (seconds_counts_every_tick es _ _ Ht Hes), H0. reflexivity.
Qed.

(** C1. The counter is not frozen while paused.  After start, five ticks
    and pause() the session is paused with 5 seconds on the counter; the
    next tick makes it 6; and the whole scenario (three ticks paused, two
    more after resume) ends with 10 seconds, not 7. *)
Theorem paused_ticks_are_counted :
  let w := run (mounted audio) until_pause in
  isPaused (hooks w) = true /\
  (mr_state <$> mediaRecorderRef (refs w)) = Some paused /\
  seconds (hooks w) = 5 /\
  seconds (hooks (tick w)) = 6 /\
  seconds (hooks (run (mounted audio) pause_scenario)) = 10.
Proof. vm_compute. repeat split. Qed.

(** ** Releasing the capture stream *)

Lemma tracks_stopped (id : nat) (streams : gset nat) :
  id ∉ streams ∖ {[ id ]}.
Proof.
  intros [_ Hid]%elem_of_difference.
  apply Hid, elem_of_singleton. reflexivity.
Qed.

Lemma stop_releases w id :
  streamRef (refs w) = Some id ->
  id ∉ live (browser (stop w)).
Proof.
  intros Hs. unfold stop.
  destruct w as [h [m c s v t] b]; simpl in *. subst s.
  destruct m as [mr|]; simpl; destruct (isRecording h); simpl;
    destruct v as [el|]; simpl; destruct t as [tid|]; simpl;
    apply tracks_stopped.
Qed.

Lemma unmount_releases w id :
  streamRef (refs w) = Some id ->
  id ∉ live (browser (unmount w)).
Proof.
  intros Hs. unfold unmount.
  destruct w as [h [m c s v t] b]; simpl in *. subst s.
  destruct m as [mr|]; simpl;
    try destruct (bool_decide (mr_state mr <> inactive)); simpl;
    destruct v as [el|]; simpl; destruct t as [tid|]; simpl;
    apply tracks_stopped.
Qed.

(** A refused [getUserMedia] acquires nothing. *)
Lemma start_refused_acquires_nothing env w msg :
  getUserMedia env = Some msg ->
  live (browser (start env w)) = live (browser w).
Proof.
  intros Hg. unfold start. rewrite Hg.
  destruct w as [[m ir ip sec bu bl] r b]; simpl.
  destruct bu; reflexivity.
Qed.

(** C3. The error path of start() does not release the stream.  When
    getUserMedia has resolved and the MediaRecorder constructor throws, the
    catch block only alerts: the acquired stream (number 0) keeps its live
    tracks while the component shows no recording.  A later successful
    start() overwrites [streamRef], and then neither stop() nor the unmount
    cleanup ever stops the tracks of stream 0. *)
Theorem failed_start_keeps_stream_live :
  let w := start recorder_refused (mounted video) in
  live (browser (mounted video)) = ∅ /\
  0 ∈ live (browser w) /\
  isRecording (hooks w) = false /\
  alerts (browser w) = ["Unable to start recording: NotSupportedError"] /\
  0 ∈ live (browser (run w [Start (start_ok full_runtime); Stop;
                            Stopped None; Unmount])).
Proof.
  repeat split; try reflexivity;
    apply (bool_decide_unpack _); vm_compute; exact I.
Qed.

(** ** Assembling the artifact *)

Lemma start_in_session env w :
  getUserMedia env = None -> construct env = None -> mr_start env = None ->
  in_session (mode (hooks w)) [] (start env w) /\
  (mr_mimeType <$> mediaRecorderRef (refs (start env w))) =
    Some (pickMimeType (runtime env) (mode (hooks w))).
Proof.
  intros Hg Hc Hs. unfold start. rewrite Hg, Hc, Hs.
  destruct w as [[m ir ip sec bu bl] [mr c sr v t] b]; simpl.
  destruct bu as [u|], m, v as [el|]; simpl;
    (split; [split; [reflexivity | split; [reflexivity|]] | reflexivity]);
    eexists; (split; [reflexivity|]); simpl; repeat split; discriminate.
Qed.

Lemma ondataavailable_appends d w :
  chunksRef (refs (ondataavailable d w)) = chunksRef (refs w) ++ kept d /\
  hooks (ondataavailable d w) = hooks w /\
  mediaRecorderRef (refs (ondataavailable d w)) = mediaRecorderRef (refs w).
Proof.
  unfold ondataavailable, kept.
  destruct d as [d|]; [destruct (bool_decide (0 < size d))|]; simpl;
    rewrite ?app_nil_r; repeat split.
Qed.

Lemma step_in_session m cs w e :
  session_event e = true ->
  in_session m cs w ->
  in_session m (cs ++ appended [e]) (step w e).
Proof.
  intros He (Hr & Hc & mr & Hmr & Hst & Hm & Hsp).
  destruct e; try discriminate He; simpl; rewrite ?app_nil_r.
  - (* pause *)
    unfold pause. rewrite Hmr.
    destruct (mr_state mr) eqn:E; try contradiction; simpl.
    + split; [assumption|]. split; [assumption|].
      exists (set_mr_state paused mr). simpl.
      repeat split; solve [assumption | discriminate].
    + split; [assumption|]. split; [assumption|].
      exists mr. rewrite E.
      repeat split; solve [assumption | discriminate].
  - (* resume *)
    unfold resume. rewrite Hmr.
    destruct (mr_state mr) eqn:E; try contradiction; simpl.
    + split; [assumption|]. split; [assumption|].
      exists mr. rewrite E.
      repeat split; solve [assumption | discriminate].
    + split; [assumption|]. split; [assumption|].
      exists (set_mr_state recording mr). simpl.
      repeat split; solve [assumption | discriminate].
  - (* tick *)
    split; [assumption|]. split; [assumption|].
    exists mr. repeat split; assumption.
  - (* dataavailable *)
    unfold deliver_data. rewrite Hmr.
    destruct (ondataavailable_appends data w) as (Hc' & Hh & Hmr').
    split; [rewrite Hh; assumption|].
    split; [rewrite Hc', Hc; reflexivity|].
    exists mr. rewrite Hmr'. repeat split; assumption.
Qed.

Lemma appended_app es1 es2 :
  appended (es1 ++ es2) = appended es1 ++ appended es2.
Proof.
  induction es1 as [|e es1 IH]; simpl; [reflexivity|].
  destruct e; try assumption.
  rewrite IH, app_assoc. reflexivity.
Qed.

Lemma run_in_session m es :
  forall cs w,
    forallb session_event es = true ->
    in_session m cs w ->
    in_session m (cs ++ appended es) (run w es).
Proof.
  induction es as [|e es IH]; intros cs w Hes Hw.
  - simpl. rewrite app_nil_r. assumption.
  - simpl in Hes. apply andb_prop in Hes as [He Hes].
    replace (cs ++ appended (e :: es))
      with ((cs ++ appended [e]) ++ appended es).
    + apply (IH _ (step w e)); [assumption|].
      apply step_in_session; assumption.
    + rewrite <- app_assoc, <- appended_app. reflexivity.
Qed.

Lemma stop_then_events m cs w final :
  in_session m cs w ->
  blob (hooks (deliver_stop final (stop w))) =
    Some (new_Blob (cs ++ kept final) (blob_type_of m)).
Proof.
  intros (Hr & Hc & mr & Hmr & Hst & Hm & Hsp).
  destruct w as [[md ir ip sec bu bl] [mref c sr v t] b]; simpl in *.
  subst ir c mref m.
  unfold stop; simpl.
  assert (Hstop : mr_stop mr = set_mr_stopping true (set_mr_state inactive mr)).
  { unfold mr_stop. destruct (mr_state mr); [contradiction | reflexivity..]. }
  rewrite Hstop.
  destruct sr as [id|], v as [el|]; simpl; unfold deliver_stop; simpl;
    destruct final as [d|]; simpl;
    try destruct (bool_decide (0 < size d)); simpl;
    rewrite ?app_nil_r; reflexivity.
Qed.

Lemma session_run_app w es1 es2 : run w (es1 ++ es2) = run (run w es1) es2.
Proof. apply foldl_app. Qed.

(** The blob a whole session leaves behind. *)
Lemma finished_blob env w es final :
  getUserMedia env = None -> construct env = None -> mr_start env = None ->
  forallb session_event es = true ->
  blob (hooks (run w (Start env :: es ++ [Stop; Stopped final]))) =
    Some (new_Blob (appended es ++ kept final)
                   (blob_type_of (mode (hooks w)))).
Proof.
  intros Hg Hc Hs Hes.
  change (Start env :: es ++ [Stop; Stopped final])
    with ([Start env] ++ es ++ [Stop; Stopped final]).
  rewrite !session_run_app. simpl.
  apply stop_then_events.
  apply (run_in_session _ es []); [assumption|].
  apply start_in_session; assumption.
Qed.

Lemma kept_nonempty d : Forall (fun c => 0 < size c) (kept d).
Proof.
  unfold kept. destruct d as [d|]; [|constructor].
  destruct (bool_decide (0 < size d)) eqn:E; [|constructor].
  apply bool_decide_eq_true in E. repeat constructor. assumption.
Qed.

Lemma appended_nonempty es : Forall (fun c => 0 < size c) (appended es).
Proof.
  induction es as [|e es IH]; simpl; [constructor|].
  destruct e; try assumption.
  apply Forall_app. split; [apply kept_nonempty | assumption].
Qed.

Lemma kept_payload d :
  concat (map payload (kept d)) =
    match d with Some b => payload b | None => [] end.
Proof.
  unfold kept. destruct d as [d|]; [|reflexivity].
  destruct (bool_decide (0 < size d)) eqn:E; simpl.
  - apply app_nil_r.
  - apply bool_decide_eq_false in E. unfold size in E.
    destruct (payload d); [reflexivity | simpl in E; lia].
Qed.

Lemma appended_payload es :
  concat (map payload (appended es)) = concat (map payload (delivered es)).
Proof.
  induction es as [|e es IH]; simpl; [reflexivity|].
  destruct e; try assumption.
  rewrite map_app, concat_app, kept_payload, IH.
  destruct data; reflexivity.
Qed.

(** C4. Whatever chunks arrive between a successful start() and stop(),
    interleaved with pauses, resumes and ticks, the finished blob's bytes
    are the concatenation, in arrival order, of the chunks that were
    appended: the delivered blobs of positive size, the final flush
    included.  The dropped zero-length chunks are none of them, and
    dropping them loses no byte. *)
Theorem artifact_is_concatenation env w es final :
  getUserMedia env = None -> construct env = None -> mr_start env = None ->
  forallb session_event es = true ->
  exists b,
    blob (hooks (run w (Start env :: es ++ [Stop; Stopped final]))) = Some b /\
    payload b = concat (map payload (appended es ++ kept final)) /\
    Forall (fun c => 0 < size c) (appended es ++ kept final) /\
    payload b =
      concat (map payload (delivered (es ++ [Data final]))).
Proof.
  intros Hg Hc Hs Hes.
  eexists. split; [apply finished_blob; assumption|].
  split; [reflexivity|].
  split; [apply Forall_app; split;
          [apply appended_nonempty | apply kept_nonempty]|].
  simpl.
  rewrite <- appended_payload, appended_app. simpl.
  rewrite app_nil_r. reflexivity.
Qed.

Lemma artifact_is_concatenation_witness :
  exists b,
    blob (hooks (run (mounted audio)
                   (Start (start_ok full_runtime) ::
                    three_chunks ++ [Stop; Stopped (Some (chunk [Byte.x04]))])))
      = Some b /\
    payload b = [Byte.x01; Byte.x02; Byte.x03; Byte.x04].
Proof.
  destruct (artifact_is_concatenation (start_ok full_runtime) (mounted audio)
              three_chunks (Some (chunk [Byte.x04]))
              eq_refl eq_refl eq_refl eq_refl)
    as (b & Hb & Hp & _).
  exists b. split; [exact Hb | exact Hp].
Defined.

(** ** The artifact's type *)

(** C8, as stated, fails: on a runtime that supports VP9 the negotiator
    chooses "video/webm;codecs=vp9,opus" and the finished blob is tagged
    "video/webm". *)
Lemma blob_type_is_not_negotiated :
  ~ (forall rt m final,
       (type <$> blob (hooks (run (mounted m)
                                [Start (start_ok rt); Stop; Stopped final])))
       = pickMimeType rt m).
Proof.
  intros H. specialize (H full_runtime video None).
  vm_compute in H. discriminate H.
Qed.

Lemma candidates_extend_blob_type m t :
  t ∈ candidates m -> String.prefix (blob_type_of m) t = true.
Proof.
  destruct m; simpl; intros Hin;
    repeat (apply elem_of_cons in Hin as [-> | Hin]; [reflexivity|]);
    inversion Hin.
Qed.

Lemma pickMimeType_candidate rt m t :
  pickMimeType rt m = Some t -> t ∈ candidates m.
Proof.
  intros Hp. pose proof (pick_from_first rt (candidates m)) as H.
  unfold pickMimeType in Hp. rewrite Hp in H.
  destruct H as (before & after & -> & _).
  apply elem_of_app. right. apply elem_of_cons. left. reflexivity.
Qed.

(** C8, amended.  The finished blob is tagged by capture kind alone,
    "video/webm" for video and "audio/webm" for audio, whatever the
    negotiator chose.  The negotiated string is what the recorder was
    constructed with; when there is one, the blob's type is its container
    part, without the codec parameters. *)
Theorem blob_type_follows_kind env w es final :
  getUserMedia env = None -> construct env = None -> mr_start env = None ->
  forallb session_event es = true ->
  exists b,
    blob (hooks (run w (Start env :: es ++ [Stop; Stopped final]))) = Some b /\
    type b = blob_type_of (mode (hooks w)) /\
    (mr_mimeType <$> mediaRecorderRef (refs (start env w))) =
      Some (pickMimeType (runtime env) (mode (hooks w))) /\
    forall t, pickMimeType (runtime env) (mode (hooks w)) = Some t ->
              String.prefix (type b) t = true.
Proof.
  intros Hg Hc Hs Hes.
  eexists. split; [apply finished_blob; assumption|].
  split; [reflexivity|].
  split; [apply start_in_session; assumption|].
  intros t Ht. simpl.
  apply candidates_extend_blob_type, (pickMimeType_candidate _ _ _ Ht).
Qed.

Lemma blob_type_follows_kind_witness :
  exists b,
    blob (hooks (run (mounted video)
                   (Start (start_ok full_runtime) ::
                    three_chunks ++ [Stop; Stopped None]))) = Some b /\
    type b = "video/webm".
Proof.
  destruct (blob_type_follows_kind (start_ok full_runtime) (mounted video)
              three_chunks None eq_refl eq_refl eq_refl eq_refl)
    as (b & Hb & Ht & _).
  exists b. split; [exact Hb | exact Ht].
Defined.

End RecorderFacts.

(** * Properties of the scan loop *)

Module ScannerFacts.
Import Scanner.

Lemma scan_run_app w es1 es2 : run w (es1 ++ es2) = run (run w es1) es2.
Proof. apply foldl_app. Qed.

Lemma drop_handle_single h stream : drop_handle h [(h, stream)] = [].
Proof.
  unfold drop_handle. rewrite filter_cons. simpl.
  destruct (decide (h <> h)) as [Hne|_]; [contradiction|].
  apply filter_nil.
Qed.

(** With one callback pending, a frame is one run of [loop]. *)
Lemma frame_single d w h stream :
  frame_callbacks w = [(h, stream)] ->
  frame d w =
    loop stream d
      {| cameraAllowed := cameraAllowed w; videoRef := videoRef w;
         canvasRef := canvasRef w; rafRef := rafRef w;
         streamRef := streamRef w; live := live w;
         next_stream := next_stream w; frame_callbacks := [];
         next_handle := next_handle w; timeouts := timeouts w;
         location_href := location_href w |}.
Proof.
  intros Hcb. unfold frame. rewrite Hcb. simpl.
  unfold run_callback. rewrite Hcb.
  rewrite bool_decide_eq_true_2 by (apply list_elem_of_singleton; reflexivity).
  simpl. rewrite drop_handle_single. reflexivity.
Qed.

Lemma frame_idle d w : frame_callbacks w = [] -> frame d w = w.
Proof. intros Hcb. unfold frame. rewrite Hcb. reflexivity. Qed.

Lemma miss_not_found d : miss d = true -> found d = None /\ d <> Throws.
Proof.
  destruct d as [|data|]; simpl; intros H; try discriminate H.
  - split; [reflexivity | discriminate].
  - rewrite H. split; [reflexivity | discriminate].
Qed.

(** A miss: the next iteration is scheduled and nothing else changes. *)
Lemma frame_miss d w stream :
  scanning stream w -> miss d = true ->
  scanning stream (frame d w) /\
  live (frame d w) = live w /\
  timeouts (frame d w) = timeouts w /\
  location_href (frame d w) = location_href w /\
  streamRef (frame d w) = streamRef w.
Proof.
  intros (Hv & Hc & h & Hh & Hcb) Hd.
  rewrite (frame_single d w h stream Hcb).
  destruct (miss_not_found d Hd) as [Hf Hnt].
  assert (Hloop : forall w0, videoRef w0 = true -> canvasRef w0 = true ->
                             loop stream d w0 = schedule stream w0).
  { intros w0 Hv0 Hc0. unfold loop. rewrite Hv0, Hc0, Hf.
    destruct d; [reflexivity | reflexivity | contradiction]. }
  rewrite Hloop by assumption.
  split; [|repeat split].
  split; [assumption|]. split; [assumption|].
  eexists. split; reflexivity.
Qed.

(** A hit: the tracks are stopped, one redirect timer is armed, nothing
    is scheduled. *)
Lemma frame_hit data w stream :
  scanning stream w -> data <> "" ->
  frame_callbacks (frame (Code data) w) = [] /\
  live (frame (Code data) w) = live w ∖ {[ stream ]} /\
  timeouts (frame (Code data) w) = timeouts w ++ [data] /\
  location_href (frame (Code data) w) = location_href w.
Proof.
  intros (Hv & Hc & h & Hh & Hcb) Hd.
  rewrite (frame_single _ w h stream Hcb).
  unfold loop; simpl. rewrite Hv, Hc; simpl.
  rewrite bool_decide_eq_false_2 by assumption.
  unfold cancelAnimationFrame; simpl. rewrite Hh; simpl.
  repeat split.
Qed.

(** A decoder exception: the run of [loop] ends there; nothing is
    scheduled, nothing is released, nothing is reported. *)
Lemma frame_throws w stream :
  scanning stream w ->
  frame_callbacks (frame Throws w) = [] /\
  live (frame Throws w) = live w /\
  timeouts (frame Throws w) = timeouts w /\
  location_href (frame Throws w) = location_href w /\
  cameraAllowed (frame Throws w) = cameraAllowed w.
Proof.
  intros (Hv & Hc & h & Hh & Hcb).
  rewrite (frame_single _ w h stream Hcb).
  unfold loop; simpl. rewrite Hv, Hc; simpl.
  repeat split.
Qed.

Lemma cleanup_fields w :
  timeouts (cleanup w) = timeouts w /\
  location_href (cleanup w) = location_href w /\
  live (cleanup w) ⊆ live w /\
  (frame_callbacks w = [] -> frame_callbacks (cleanup w) = []).
Proof.
  unfold cleanup, cancelAnimationFrame.
  destruct (rafRef w) as [h|]; simpl;
    destruct (streamRef w) as [id|]; simpl;
    repeat split; try (intros ->; reflexivity);
    first [ apply subseteq_difference_l; reflexivity | reflexivity ].
Qed.

(** Once no callback is pending, and short of a new activation, nothing
    is ever scheduled again: frames pass unseen, streams are only
    released, and each firing timer performs the one redirect it was armed
    with. *)
Lemma idle_run (es : list Event) :
  forall w,
    frame_callbacks w = [] ->
    forallb quiet es = true ->
    frame_callbacks (run w es) = [] /\
    location_href (run w es) =
      location_href w ++ take (fired es) (timeouts w) /\
    timeouts (run w es) = drop (fired es) (timeouts w) /\
    live (run w es) ⊆ live w.
Proof.
  induction es as [|e es IH]; intros w Hcb Hes.
  - simpl. rewrite app_nil_r. repeat split; solve [assumption | reflexivity].
  - simpl in Hes. apply andb_prop in Hes as [He Hes].
    destruct e as [env|d| |]; try discriminate He; simpl.
    + rewrite (frame_idle d w Hcb). apply IH; assumption.
    + unfold timeout. destruct (timeouts w) as [|data rest] eqn:Ht.
      * destruct (IH w Hcb Hes) as (H1 & H2 & H3 & H4).
        rewrite Ht in H2, H3. rewrite take_nil in H2. rewrite drop_nil in H3.
        simpl. repeat split; assumption.
      * match goal with |- context [run ?w' es] =>
          destruct (IH w' Hcb Hes) as (H1 & H2 & H3 & H4) end.
        simpl in *. rewrite <- app_assoc in H2.
        repeat split; assumption.
    + destruct (cleanup_fields w) as (Ht & Hl & Hs & Hc).
      destruct (IH (cleanup w) (Hc Hcb) Hes) as (H1 & H2 & H3 & H4).
      rewrite Ht, Hl in *.
      repeat split; try assumption.
      etransitivity; eassumption.
Qed.

(** A run of misses keeps the loop scanning and changes nothing else. *)
Lemma misses_keep_scanning (pre : list Decode) :
  forall w stream,
    scanning stream w ->
    forallb miss pre = true ->
    scanning stream (run w (map Frame pre)) /\
    live (run w (map Frame pre)) = live w /\
    timeouts (run w (map Frame pre)) = timeouts w /\
    location_href (run w (map Frame pre)) = location_href w.
Proof.
  induction pre as [|d pre IH]; intros w stream Hw Hpre.
  - split; [exact Hw | repeat split].
  - simpl in Hpre. apply andb_prop in Hpre as [Hd Hpre].
    destruct (frame_miss d w stream Hw Hd) as (Hs & Hl & Ht & Hloc & _).
    destruct (IH (frame d w) stream Hs Hpre) as (Hs' & Hl' & Ht' & Hloc').
    change (run w (map Frame (d :: pre)))
      with (run (frame d w) (map Frame pre)).
    rewrite Hl', Ht', Hloc'.
    split; [exact Hs' | repeat split; assumption].
Qed.

(** C5. From a scanning loop with no redirect pending, let any number of
    frames miss and then one frame decode to a non-empty text.  That run of
    the loop stops the stream's tracks, schedules no further iteration and
    arms one redirect timer with the decoded text.  Whatever follows, short
    of a new activation (more frames, the timer, leaving the screen), no
    iteration is ever pending again, the stream stays released, and the
    navigation log gains exactly the decoded text once the timer has
    fired, and nothing before that: never a second payload. *)
Theorem decode_redirects_once
    (w : World) (stream : nat) (pre : list Decode) (data : string)
    (post : list Event) :
  scanning stream w ->
  timeouts w = [] ->
  forallb miss pre = true ->
  data <> "" ->
  forallb quiet post = true ->
  let hit := run w (map Frame pre ++ [Frame (Code data)]) in
  let w' := run hit post in
  (frame_callbacks hit = [] /\ (stream ∉ live hit) /\
   timeouts hit = [data] /\ location_href hit = location_href w) /\
  frame_callbacks w' = [] /\
  (stream ∉ live w') /\
  location_href w' =
    location_href w ++ match fired post with 0 => [] | S _ => [data] end.
Proof.
  intros Hw Ht Hpre Hd Hpost hit w'.
  destruct (misses_keep_scanning pre w stream Hw Hpre) as (Hs & Hl & Ht' & Hloc).
  destruct (frame_hit data _ stream Hs Hd) as (Hcb & Hlive & Hto & Hloc').
  assert (Hhit : hit = frame (Code data) (run w (map Frame pre))).
  { unfold hit. rewrite scan_run_app. reflexivity. }
  rewrite Ht', Ht in Hto. simpl in Hto. rewrite Hloc in Hloc'.
  assert (Hrel : stream ∉ live hit).
  { rewrite Hhit, Hlive. intros [_ Hin]%elem_of_difference.
    apply Hin, elem_of_singleton. reflexivity. }
  rewrite <- Hhit in Hcb, Hto, Hloc'.
  split; [repeat split; assumption|].
  destruct (idle_run post hit Hcb Hpost) as (H1 & H2 & H3 & H4).
  split; [exact H1|].
  split; [intros Hin; apply Hrel, H4, Hin|].
  fold w' in H2. rewrite H2, Hloc', Hto.
  destruct (fired post) as [|n]; simpl; rewrite ?take_nil; reflexivity.
Qed.

Lemma activated_scanning : scanning 0 activated.
Proof.
  split; [reflexivity|]. split; [reflexivity|].
  exists 0. split; reflexivity.
Qed.

(** The scenario of the specification: the fourth sample decodes. *)
Lemma decode_redirects_once_witness :
  let hit := run activated
               (map Frame [NoCode; Code ""; NoCode] ++
                [Frame (Code "https://example.org/room")]) in
  let w' := run hit [Frame NoCode; Timeout; Cleanup; Timeout] in
  frame_callbacks w' = [] /\
  (0 ∉ live w') /\
  location_href w' = ["https://example.org/room"].
Proof.
  intros hit w'.
  destruct (decode_redirects_once activated 0 [NoCode; Code ""; NoCode]
              "https://example.org/room"
              [Frame NoCode; Timeout; Cleanup; Timeout]
              activated_scanning eq_refl eq_refl
              ltac:(discriminate) eq_refl) as (_ & H1 & H2 & H3).
  split; [exact H1|]. split; [exact H2|].
  exact H3.
Defined.

(** ** Decoder exceptions *)

(** C9, as stated, fails: a scanning loop whose decoder throws is not
    scanning afterwards. *)
Lemma thrown_decode_ends_scanning :
  ~ (forall w stream, scanning stream w -> scanning stream (frame Throws w)).
Proof.
  intros H.
  destruct (H activated 0 activated_scanning) as (_ & _ & h & _ & Hcb).
  vm_compute in Hcb. discriminate Hcb.
Qed.

(** C9, amended.  Only a decode attempt that returns without a payload
    (null, or a code with empty text) is an ordinary failure: the loop
    schedules its next iteration and changes nothing else.  The loop does
    not catch exceptions: a decode attempt that throws ends the run before
    anything is scheduled, the stream stays acquired, and short of a new
    activation no iteration runs and no redirect happens afterwards. *)
Theorem only_returned_miss_continues (w : World) (stream : nat) (d : Decode) :
  scanning stream w ->
  (miss d = true ->
   scanning stream (frame d w) /\
   live (frame d w) = live w /\
   timeouts (frame d w) = timeouts w /\
   location_href (frame d w) = location_href w) /\
  (d = Throws ->
   frame_callbacks (frame d w) = [] /\
   live (frame d w) = live w /\
   forall post,
     forallb quiet post = true ->
     timeouts w = [] ->
     frame_callbacks (run (frame d w) post) = [] /\
     location_href (run (frame d w) post) = location_href w).
Proof.
  intros Hw. split.
  - intros Hd.
    destruct (frame_miss d w stream Hw Hd) as (H1 & H2 & H3 & H4 & _).
    split; [exact H1 | repeat split; assumption].
  - intros ->.
    destruct (frame_throws w stream Hw) as (Hcb & Hl & Ht & Hloc & _).
    split; [exact Hcb|]. split; [exact Hl|].
    intros post Hpost Hnone.
    destruct (idle_run post _ Hcb Hpost) as (H1 & H2 & _).
    split; [exact H1|].
    rewrite H2, Ht, Hnone, take_nil, app_nil_r. exact Hloc.
Qed.

Lemma only_returned_miss_continues_witness :
  scanning 0 (frame NoCode activated) /\
  frame_callbacks (frame Throws activated) = [] /\
  location_href
    (run (frame Throws activated)
       [Frame (Code "https://example.org/room"); Timeout]) = [].
Proof.
  split; [|split].
  - apply (proj1 (only_returned_miss_continues activated 0 NoCode
                    activated_scanning) eq_refl).
  - apply (proj2 (only_returned_miss_continues activated 0 Throws
                    activated_scanning) eq_refl).
  - apply (proj2 (only_returned_miss_continues activated 0 Throws
                    activated_scanning) eq_refl);
      reflexivity.
Defined.

(** ** Leaving the scan screen *)

Lemma frame_no_hit d w stream :
  scanning stream w -> no_hit d = true ->
  (scanning stream (frame d w) \/ frame_callbacks (frame d w) = []) /\
  timeouts (frame d w) = timeouts w /\
  location_href (frame d w) = location_href w.
Proof.
  intros Hw Hd. destruct d as [|data|].
  - destruct (frame_miss NoCode w stream Hw eq_refl) as (H1 & _ & H3 & H4 & _).
    split; [left; exact H1 | split; assumption].
  - assert (Hm : miss (Code data) = true).
    { unfold no_hit in Hd. simpl in *.
      destruct (bool_decide (data = "")); [reflexivity | discriminate Hd]. }
    destruct (frame_miss _ w stream Hw Hm) as (H1 & _ & H3 & H4 & _).
    split; [left; exact H1 | split; assumption].
  - destruct (frame_throws w stream Hw) as (H1 & _ & H3 & H4 & _).
    split; [right; exact H1 | split; assumption].
Qed.

Lemma no_hits_arm_nothing (pre : list Decode) :
  forall w stream,
    scanning stream w \/ frame_callbacks w = [] ->
    forallb no_hit pre = true ->
    (scanning stream (run w (map Frame pre)) \/
     frame_callbacks (run w (map Frame pre)) = []) /\
    timeouts (run w (map Frame pre)) = timeouts w /\
    location_href (run w (map Frame pre)) = location_href w.
Proof.
  induction pre as [|d pre IH]; intros w stream Hw Hpre.
  - split; [exact Hw | split; reflexivity].
  - simpl in Hpre. apply andb_prop in Hpre as [Hd Hpre].
    change (run w (map Frame (d :: pre)))
      with (run (frame d w) (map Frame pre)).
    destruct Hw as [Hw | Hw].
    + destruct (frame_no_hit d w stream Hw Hd) as (H1 & H2 & H3).
      destruct (IH (frame d w) stream H1 Hpre) as (H1' & H2' & H3').
      rewrite H2', H3'. split; [exact H1' | split; assumption].
    + rewrite (frame_idle d w Hw).
      apply IH; [right; exact Hw | exact Hpre].
Qed.

Lemma cleanup_cancels w stream :
  scanning stream w \/ frame_callbacks w = [] ->
  frame_callbacks (cleanup w) = [].
Proof.
  intros [(_ & _ & h & Hh & Hcb) | Hcb].
  - unfold cleanup, cancelAnimationFrame. rewrite Hh.
    destruct (streamRef w); simpl; rewrite Hcb; apply drop_handle_single.
  - apply cleanup_fields. exact Hcb.
Qed.

(** X6. Leaving the screen while no frame has decoded yet does silence the
    loop: afterwards, short of a new activation, nothing is scheduled and
    nothing is redirected. *)
Lemma cleanup_before_decode_is_final
    (w : World) (stream : nat) (pre : list Decode) (post : list Event) :
  scanning stream w ->
  timeouts w = [] ->
  forallb no_hit pre = true ->
  forallb quiet post = true ->
  location_href (run w (map Frame pre ++ Cleanup :: post)) = location_href w.
Proof.
  intros Hw Ht Hpre Hpost.
  rewrite scan_run_app.
  destruct (no_hits_arm_nothing pre w stream (or_introl Hw) Hpre)
    as (Hs & Ht' & Hloc).
  set (w1 := run w (map Frame pre)) in *.
  change (run w1 (Cleanup :: post)) with (run (cleanup w1) post).
  destruct (cleanup_fields w1) as (Hct & Hcl & _ & _).
  destruct (idle_run post (cleanup w1) (cleanup_cancels w1 stream Hs) Hpost)
    as (_ & H2 & _).
  rewrite H2, Hct, Hcl, Ht', Ht, take_nil, app_nil_r. exact Hloc.
Qed.

(** C2. A redirect armed by a decode survives leaving the screen.  After a
    successful decode the cleanup cancels the animation frame and stops the
    stream, and returns with nothing navigated; the redirect timer, whose
    handle was never kept, is still pending, and when it fires the page
    navigates to the decoded text. *)
Theorem redirect_survives_cleanup :
  let left := cleanup (run mounted late_decode) in
  location_href left = [] /\
  frame_callbacks left = [] /\
  live left = ∅ /\
  timeouts left = ["https://example.org/room"] /\
  location_href (timeout left) = ["https://example.org/room"].
Proof. vm_compute. repeat split. Qed.

End ScannerFacts.

(** * Properties of the ingest endpoint *)

Module IngestFacts.
Import Ingest.

Lemma starts_with_lower p s :
  starts_with p s = true <-> exists rest, to_lower s = p +:+ rest.
Proof.
  revert s. induction p as [|a p IH]; intros s; simpl.
  - split; [intros _; exists (to_lower s); reflexivity | reflexivity].
  - destruct s as [|b s]; simpl.
    + split; [discriminate | intros [rest H]; discriminate H].
    + rewrite andb_true_iff, bool_decide_eq_true, IH. split.
      * intros [-> [rest ->]]. exists rest. reflexivity.
      * intros [rest H]. injection H as H1 H2.
        split; [symmetry; exact H1 | exists rest; exact H2].
Qed.

(** X1. The URL test accepts exactly the texts that, letter case aside, begin
    with http:// or https://. *)
Theorem scheme_ok_iff (text : string) :
  scheme_ok text = true <->
  exists rest,
    to_lower text = "http://" +:+ rest \/ to_lower text = "https://" +:+ rest.
Proof.
  unfold scheme_ok. rewrite orb_true_iff, !starts_with_lower. split.
  - intros [[rest H] | [rest H]]; exists rest; [left | right]; exact H.
  - intros [rest [H | H]]; [left | right]; exists rest; exact H.
Qed.

(** A request as the handler sees it after its three checks. *)
Lemma ingest_cases p req :
  let r := ingestMyWebAR p req in
  (snd r = nothing /\
   ((status (fst r) = 405 /\ method req <> "POST") \/
    (status (fst r) = 400 /\ method req = "POST")) /\
   exists msg, json (fst r) = ErrorBody msg) \/
  (method req = "POST" /\
   exists b,
     body req = Some b /\
     truthy (body_roomId b) = true /\
     truthy (body_url b) = true /\
     scheme_ok (to_text (body_url b)) = true /\
     head_requests (snd r) = [to_text (body_url b)] /\
     let doc :=
       {| roomId := body_roomId b;
          title := or_else (body_title b) (Str "External AR");
          externalUrl := body_url b;
          thumbUrl := if truthy (body_thumbUrl b)
                      then Some (body_thumbUrl b) else None;
          createdAt := serverTimestamp |} in
     match add p with
     | Resolved id =>
         status (fst r) = 200 /\ json (fst r) = Created id doc /\
         stored (snd r) = [doc]
     | Rejected _ =>
         status (fst r) = 500 /\
         json (fst r) = ErrorBody "Internal error" /\
         stored (snd r) = []
     end).
Proof.
  unfold ingestMyWebAR.
  destruct (bool_decide (method req = "POST")) eqn:Hm; simpl.
  2:{ apply bool_decide_eq_false in Hm. left.
      split; [reflexivity|]. split; [left; split; [reflexivity | exact Hm]|].
      eexists; reflexivity. }
  apply bool_decide_eq_true in Hm.
  destruct (body req) as [b|] eqn:Hb; simpl.
  2:{ left. split; [reflexivity|].
      split; [right; split; [reflexivity | exact Hm]|].
      eexists; reflexivity. }
  destruct (truthy (body_roomId b)) eqn:Hr; simpl.
  2:{ left. split; [reflexivity|].
      split; [right; split; [reflexivity | exact Hm]|].
      eexists; reflexivity. }
  destruct (truthy (body_url b)) eqn:Hu; simpl.
  2:{ left. split; [reflexivity|].
      split; [right; split; [reflexivity | exact Hm]|].
      eexists; reflexivity. }
  destruct (scheme_ok (to_text (body_url b))) eqn:Hs; simpl.
  2:{ left. split; [reflexivity|].
      split; [right; split; [reflexivity | exact Hm]|].
      eexists; reflexivity. }
  right. split; [exact Hm|]. exists b.
  split; [reflexivity|].
  destruct (add p); simpl; repeat split; assumption.
Qed.

(** X2. Whatever is written to the collection comes from a request that
    passed every check: a POST whose roomId and url are truthy and whose
    url has an http or https scheme.  The document carries those two
    values as sent, a truthy title, and a thumbnail that is null or
    truthy; and the request is answered with 200. *)
Theorem stored_document_is_validated p req d :
  d ∈ stored (snd (ingestMyWebAR p req)) ->
  method req = "POST" /\
  status (fst (ingestMyWebAR p req)) = 200 /\
  stored (snd (ingestMyWebAR p req)) = [d] /\
  truthy (roomId d) = true /\
  truthy (externalUrl d) = true /\
  scheme_ok (to_text (externalUrl d)) = true /\
  truthy (title d) = true /\
  (forall t, thumbUrl d = Some t -> truthy t = true) /\
  exists b,
    body req = Some b /\ roomId d = body_roomId b /\
    externalUrl d = body_url b.
Proof.
  intros Hd.
  destruct (ingest_cases p req) as [(He & _) | (Hm & b & Hb & Hr & Hu & Hs & _ & H)].
  - rewrite He in Hd. inversion Hd.
  - cbv zeta in H. destruct (add p) as [id|msg].
    + destruct H as (Hst & _ & Hsto). rewrite Hsto in Hd |- *.
      apply list_elem_of_singleton in Hd. subst d. simpl.
      repeat (split; [first [reflexivity | assumption]|]).
      split.
      { unfold or_else. destruct (truthy (body_title b)) eqn:E;
          [exact E | reflexivity]. }
      split.
      { intros t. destruct (truthy (body_thumbUrl b)) eqn:E;
          [intros [= <-]; exact E | discriminate]. }
      exists b. repeat split. exact Hb.
    + destruct H as (_ & _ & Hsto). rewrite Hsto in Hd. inversion Hd.
Qed.

Lemma stored_document_is_validated_witness :
  status (fst (ingestMyWebAR platform_up good_request)) = 200 /\
  truthy (title good_document) = true /\
  scheme_ok (to_text (externalUrl good_document)) = true.
Proof.
  destruct (stored_document_is_validated platform_up good_request
              good_document)
    as (_ & Hst & _ & _ & _ & Hs & Ht & _).
  - vm_compute. apply list_elem_of_here.
  - split; [exact Hst|]. split; [exact Ht | exact Hs].
Defined.

(** X3. The answer tells what was written: a 200 answer carries the one
    document that was stored together with the id the database gave it;
    every other answer is an error body with status 405, 400 or 500, and
    then nothing was stored. *)
Theorem answer_tells_what_was_stored p req :
  match json (fst (ingestMyWebAR p req)) with
  | Created id d =>
      status (fst (ingestMyWebAR p req)) = 200 /\
      stored (snd (ingestMyWebAR p req)) = [d] /\
      add p = Resolved id
  | ErrorBody _ =>
      stored (snd (ingestMyWebAR p req)) = [] /\
      (status (fst (ingestMyWebAR p req)) = 405 \/
       status (fst (ingestMyWebAR p req)) = 400 \/
       status (fst (ingestMyWebAR p req)) = 500)
  end.
Proof.
  destruct (ingest_cases p req)
    as [(He & Hst & msg & Hj) | (_ & b & _ & _ & _ & _ & _ & H)].
  - rewrite Hj, He. split; [reflexivity|].
    destruct Hst as [[-> _] | [-> _]]; [left | right; left]; reflexivity.
  - cbv zeta in H. destruct (add p) as [id|msg].
    + destruct H as (-> & -> & ->). repeat split.
    + destruct H as (-> & -> & ->). split; [reflexivity|].
      right; right; reflexivity.
Qed.

(** X4. The HEAD check never decides anything: with the same database
    outcome, the answer, the stored document and the requests sent are the
    same whether the HEAD request succeeded, failed or got no response.  A
    response that is ok logs nothing; any other logs one warning, on a
    request that passed validation. *)
Theorem head_check_is_advisory (h1 h2 : Head) (a : Outcome string) req :
  let r1 := ingestMyWebAR {| head := h1; add := a |} req in
  let r2 := ingestMyWebAR {| head := h2; add := a |} req in
  fst r1 = fst r2 /\
  stored (snd r1) = stored (snd r2) /\
  head_requests (snd r1) = head_requests (snd r2) /\
  errors (snd r1) = errors (snd r2) /\
  warnings (snd r1) =
    match head_requests (snd r1), h1 with
    | [], _ => []
    | _, HeadResponse true _ => []
    | _, _ => ["HEAD check failed"]
    end.
Proof.
  unfold ingestMyWebAR; simpl.
  destruct (bool_decide (method req = "POST")); simpl;
    [|repeat split].
  destruct (negb (truthy (body_roomId (default empty_body (body req)))) ||
            negb (truthy (body_url (default empty_body (body req)))));
    simpl; [repeat split|].
  destruct (scheme_ok (to_text (body_url (default empty_body (body req)))));
    simpl; [|repeat split].
  destruct a; simpl; repeat split;
    destruct h1 as [|[] ?]; reflexivity.
Qed.

(** X5. Only a request that passed validation has effects: an answer of 405
    or 400 comes with no request sent, no log line and nothing stored; and
    any URL that a HEAD request went to had passed the scheme test, on a
    POST. *)
Theorem rejection_has_no_effects p req :
  (status (fst (ingestMyWebAR p req)) = 405 \/
   status (fst (ingestMyWebAR p req)) = 400 ->
   snd (ingestMyWebAR p req) = nothing) /\
  (forall u, u ∈ head_requests (snd (ingestMyWebAR p req)) ->
             scheme_ok u = true /\ method req = "POST").
Proof.
  destruct (ingest_cases p req)
    as [(He & _) | (Hm & b & _ & _ & _ & Hs & Hh & H)].
  - split; [intros _; exact He|].
    intros u Hu. rewrite He in Hu. inversion Hu.
  - split.
    + cbv zeta in H. destruct (add p);
        destruct H as (Hst & _); rewrite Hst; intros [? | ?]; discriminate.
    + intros u Hu. rewrite Hh in Hu.
      apply list_elem_of_singleton in Hu. subst u.
      split; assumption.
Qed.

Lemma rejection_has_no_effects_witness :
  snd (ingestMyWebAR platform_up bad_scheme_request) = nothing /\
  scheme_ok "HTTPS://mywebar.com/p/scene" = true.
Proof.
  split.
  - apply (proj1 (rejection_has_no_effects platform_up bad_scheme_request)).
    right. reflexivity.
  - apply (proj2 (rejection_has_no_effects platform_up good_request)).
    vm_compute. apply list_elem_of_here.
Defined.

End IngestFacts.

(** * Properties of a whole visit to the scan screen *)

Module ScanVisitFacts.
Import Scanner ScanVisit.

Lemma cleanup_before_decode_witness :
  location_href
    (run activated (map Frame [NoCode; Throws; NoCode] ++
                    Cleanup :: [Frame (Code "https://example.org/room");
                                Timeout])) = [].
Proof.
  apply (ScannerFacts.cleanup_before_decode_is_final activated 0
           [NoCode; Throws; NoCode]
           [Frame (Code "https://example.org/room"); Timeout]
           ScannerFacts.activated_scanning eq_refl eq_refl eq_refl).
Defined.

Lemma timeout_none w : timeouts w = [] -> timeout w = w.
Proof. intros Ht. unfold timeout. rewrite Ht. reflexivity. Qed.

Lemma take_one_drop (n : nat) (data : string) :
  take n [data] ++ drop n [data] = [data].
Proof. apply take_drop. Qed.

(** X7. At most one redirect per activation.  From a scanning loop with no
    redirect pending, after any frames (decoding, missing or throwing),
    timer firings and a cleanup, in any order and number, the navigation
    log has gained at most one entry and at most one redirect is still
    pending, never both; and the text concerned is not empty and was
    decoded from one of the frames. *)
Theorem at_most_one_redirect (es : list Event) :
  forall (w : World) (stream : nat),
    scanning stream w ->
    timeouts w = [] ->
    forallb quiet es = true ->
    exists gained,
      location_href (run w es) = location_href w ++ gained /\
      (gained ++ timeouts (run w es) = [] \/
       exists data,
         gained ++ timeouts (run w es) = [data] /\
         data <> "" /\
         Frame (Code data) ∈ es).
Proof.
  induction es as [|e es IH]; intros w stream Hw Ht Hes.
  - exists []. simpl. rewrite app_nil_r. split; [reflexivity | left; exact Ht].
  - simpl in Hes. apply andb_prop in Hes as [He Hes].
    assert (Hidle : forall w1,
              frame_callbacks w1 = [] -> timeouts w1 = [] ->
              location_href w1 = location_href w ->
              exists gained,
                location_href (run w1 es) = location_href w ++ gained /\
                gained ++ timeouts (run w1 es) = []).
    { intros w1 Hcb Ht1 Hloc.
      destruct (ScannerFacts.idle_run es w1 Hcb Hes) as (_ & H2 & H3 & _).
      exists []. rewrite H2, H3, Ht1, take_nil, drop_nil, Hloc.
      split; reflexivity. }
    assert (Hnext : forall w1,
              scanning stream w1 -> timeouts w1 = [] ->
              location_href w1 = location_href w ->
              exists gained,
                location_href (run w1 es) = location_href w ++ gained /\
                (gained ++ timeouts (run w1 es) = [] \/
                 exists data,
                   gained ++ timeouts (run w1 es) = [data] /\
                   data <> "" /\ Frame (Code data) ∈ e :: es)).
    { intros w1 Hs1 Ht1 Hloc.
      destruct (IH w1 stream Hs1 Ht1 Hes) as (gained & Hg & Hcase).
      exists gained. rewrite Hg, Hloc. split; [reflexivity|].
      destruct Hcase as [Hn | (data & H1 & H2 & H3)]; [left; exact Hn|].
      right. exists data. repeat split; try assumption.
      apply elem_of_cons. right. exact H3. }
    destruct e as [env|d| |]; try discriminate He;
      change (run w (?e :: es)) with (run (step w e) es); simpl.
    + (* a frame *)
      destruct d as [|data|].
      * destruct (ScannerFacts.frame_miss NoCode w stream Hw eq_refl)
          as (Hs & _ & Ht' & Hloc & _).
        apply Hnext; [exact Hs | rewrite Ht'; exact Ht | exact Hloc].
      * destruct (decide (data = "")) as [-> | Hne].
        -- destruct (ScannerFacts.frame_miss (Code "") w stream Hw eq_refl)
             as (Hs & _ & Ht' & Hloc & _).
           apply Hnext; [exact Hs | rewrite Ht'; exact Ht | exact Hloc].
        -- destruct (ScannerFacts.frame_hit data w stream Hw Hne)
             as (Hcb & _ & Ht' & Hloc).
           destruct (ScannerFacts.idle_run es _ Hcb Hes) as (_ & H2 & H3 & _).
           rewrite Ht', Ht in H2, H3. simpl in H2, H3.
           exists (take (fired es) [data]).
           rewrite H2, H3, Hloc. split; [reflexivity|].
           right. exists data. split; [apply take_one_drop|].
           split; [exact Hne|]. apply list_elem_of_here.
      * destruct (ScannerFacts.frame_throws w stream Hw)
          as (Hcb & _ & Ht' & Hloc & _).
        destruct (Hidle _ Hcb (eq_trans Ht' Ht) Hloc) as (gained & Hg & Hn).
        exists gained. split; [exact Hg | left; exact Hn].
    + (* the timer *)
      rewrite (timeout_none w Ht).
      apply Hnext; [exact Hw | exact Ht | reflexivity].
    + (* leaving the screen *)
      destruct (ScannerFacts.cleanup_fields w) as (Ht' & Hloc & _ & _).
      destruct (Hidle (cleanup w)
                  (ScannerFacts.cleanup_cancels w stream (or_introl Hw))
                  (eq_trans Ht' Ht) Hloc) as (gained & Hg & Hn).
      exists gained. split; [exact Hg | left; exact Hn].
Qed.

Lemma at_most_one_redirect_witness :
  exists gained,
    location_href (run activated two_codes) =
      location_href activated ++ gained /\
    (gained ++ timeouts (run activated two_codes) = [] \/
     exists data,
       gained ++ timeouts (run activated two_codes) = [data] /\
       data <> "" /\
       Frame (Code data) ∈ two_codes).
Proof.
  exact (at_most_one_redirect two_codes activated 0
           ScannerFacts.activated_scanning eq_refl eq_refl).
Defined.

(** ** Entering and leaving *)











End ScanVisitFacts.

(** * Properties of the recorder on screen *)

Module RecorderUIFacts.
Import Recorder RecorderUI.

(** ** The timer and the recorder, button by button *)

Lemma resetRecording_keeps w :
  isRecording (hooks (resetRecording w)) = isRecording (hooks w) /\
  refs (resetRecording w) = refs w /\
  intervals (browser (resetRecording w)) = intervals (browser w) /\
  live (browser (resetRecording w)) = live (browser w) /\
  isPaused (hooks (resetRecording w)) = false /\
  mode (hooks (resetRecording w)) = mode (hooks w).
Proof.
  unfold resetRecording. destruct w as [[m ir ip sec bu bl] r b]; simpl.
  destruct bu; simpl; repeat split.
Qed.

Lemma start_timer_in_step env w :
  isRecording (hooks w) = false ->
  timer_in_step w ->
  timer_in_step (start env w).
Proof.
  unfold timer_in_step. intros Hr. rewrite Hr.
  intros (Ht & Hi & Hp & Hmr).
  destruct w as [[m ir ip sec bu bl] [mr c sr v t] b]; simpl in *.
  subst ir ip t. unfold start; simpl.
  destruct (getUserMedia env) as [msg|].
  { destruct bu; simpl; repeat split; assumption. }
  destruct (construct env) as [msg|].
  { destruct bu, m, v; simpl; repeat split; assumption. }
  destruct (mr_start env) as [msg|].
  { destruct bu, m, v; simpl; repeat split; assumption. }
  destruct bu, m, v; simpl; rewrite Hi;
    eexists _, _; (split; [reflexivity|]); (split; [reflexivity|]);
    (split; [reflexivity|]); simpl; (split; [discriminate | reflexivity]).
Qed.

Lemma pause_timer_in_step w : timer_in_step w -> timer_in_step (pause w).
Proof.
  unfold timer_in_step, pause.
  destruct w as [[m ir ip sec bu bl] [mr c sr v t] b]; simpl.
  destruct ir; simpl.
  - intros (t0 & mr0 & -> & Hi & -> & Hst & Hp); simpl.
    destruct (mr_state mr0) eqn:E; simpl.
    + contradiction.
    + exists t0, (set_mr_state paused mr0). simpl.
      repeat split; [exact Hi | discriminate].
    + exists t0, mr0. rewrite E. repeat split; assumption.
  - intros (Ht & Hi & Hp & Hmr).
    destruct mr as [mr0|]; [|repeat split; assumption].
    rewrite (Hmr mr0 eq_refl). repeat split; assumption.
Qed.

Lemma resume_timer_in_step w : timer_in_step w -> timer_in_step (resume w).
Proof.
  unfold timer_in_step, resume.
  destruct w as [[m ir ip sec bu bl] [mr c sr v t] b]; simpl.
  destruct ir; simpl.
  - intros (t0 & mr0 & -> & Hi & -> & Hst & Hp); simpl.
    destruct (mr_state mr0) eqn:E; simpl.
    + contradiction.
    + exists t0, mr0. rewrite E. repeat split; assumption.
    + exists t0, (set_mr_state recording mr0). simpl.
      repeat split; [exact Hi | discriminate].
  - intros (Ht & Hi & Hp & Hmr).
    destruct mr as [mr0|]; [|repeat split; assumption].
    rewrite (Hmr mr0 eq_refl). repeat split; assumption.
Qed.

Lemma mr_stop_inactive mr : mr_state (mr_stop mr) = inactive.
Proof. unfold mr_stop. destruct (mr_state mr) eqn:E; simpl; auto. Qed.

Lemma stop_timer_in_step w : timer_in_step w -> timer_in_step (stop w).
Proof.
  unfold timer_in_step.
  destruct (RecorderFacts.stop_clears w) as (Hr & Hp & Ht & _).
  rewrite Hr. intros H.
  split; [exact Ht|]. split; [|split; [exact Hp|]].
  - unfold stop.
    destruct w as [[m ir ip sec bu bl] [mr c sr v t] b]; simpl in *.
    destruct ir; simpl in *.
    + destruct H as (t0 & mr0 & -> & Hi & -> & _); simpl.
      destruct sr, v; simpl; rewrite Hi; apply delete_singleton_eq.
    + destruct H as (-> & Hi & _).
      destruct mr, sr, v; simpl; exact Hi.
  - unfold stop.
    destruct w as [[m ir ip sec bu bl] [mr c sr v t] b]; simpl in *.
    destruct ir; simpl in *.
    + destruct H as (t0 & mr0 & -> & Hi & -> & _); simpl.
      destruct sr, v; simpl; intros mr1 [= <-]; apply mr_stop_inactive.
    + destruct H as (_ & _ & _ & Hmr).
      destruct mr, sr, v; simpl; exact Hmr.
Qed.

Lemma resetRecording_timer_in_step w :
  isRecording (hooks w) = false ->
  timer_in_step w -> timer_in_step (resetRecording w).
Proof.
  unfold timer_in_step. intros Hr.
  destruct (resetRecording_keeps w) as (H1 & H2 & H3 & _ & H5 & _).
  rewrite H1, H2, H3, H5, Hr. intros (Ht & Hi & _ & Hmr).
  repeat split; assumption.
Qed.

Lemma deliver_data_keeps d w :
  hooks (deliver_data d w) = hooks w /\
  browser (deliver_data d w) = browser w /\
  mediaRecorderRef (refs (deliver_data d w)) = mediaRecorderRef (refs w) /\
  timerRef (refs (deliver_data d w)) = timerRef (refs w) /\
  streamRef (refs (deliver_data d w)) = streamRef (refs w).
Proof.
  unfold deliver_data, ondataavailable.
  destruct w as [h [mr c sr v t] b]; simpl.
  destruct mr; [|repeat split].
  destruct d as [d|]; [|repeat split].
  destruct (bool_decide (0 < size d)); repeat split.
Qed.

Lemma deliver_stop_keeps f w :
  isRecording (hooks (deliver_stop f w)) = isRecording (hooks w) /\
  isPaused (hooks (deliver_stop f w)) = isPaused (hooks w) /\
  mode (hooks (deliver_stop f w)) = mode (hooks w) /\
  intervals (browser (deliver_stop f w)) = intervals (browser w) /\
  live (browser (deliver_stop f w)) = live (browser w) /\
  timerRef (refs (deliver_stop f w)) = timerRef (refs w) /\
  streamRef (refs (deliver_stop f w)) = streamRef (refs w) /\
  (mr_state <$> mediaRecorderRef (refs (deliver_stop f w))) =
    (mr_state <$> mediaRecorderRef (refs w)).
Proof.
  unfold deliver_stop.
  destruct w as [h [mr c sr v t] b]; simpl.
  destruct mr as [mr|]; [|repeat split].
  destruct (mr_stopping mr); [|repeat split].
  unfold ondataavailable.
  destruct f as [d|]; [destruct (bool_decide (0 < size d))|];
    simpl; repeat split.
Qed.

Lemma react_timer_in_step w i : timer_in_step w -> timer_in_step (react w i).
Proof.
  intros H. destruct i; simpl; unfold press.
  - (* start *)
    destruct (shown w StartButton) eqn:E; [|exact H].
    apply start_timer_in_step; [|exact H].
    unfold shown in E. destruct (isRecording (hooks w));
      [discriminate E | reflexivity].
  - destruct (shown w PauseButton); [apply pause_timer_in_step|]; exact H.
  - destruct (shown w ResumeButton); [apply resume_timer_in_step|]; exact H.
  - destruct (shown w StopButton); [apply stop_timer_in_step|]; exact H.
  - destruct (shown w RerecordButton); [|exact H].
    apply resetRecording_timer_in_step;
      [apply RecorderFacts.stop_clears | apply stop_timer_in_step, H].
  - unfold chooseMode. destruct (canToggleMode w); exact H.
  - exact H.
  - unfold timer_in_step in *.
    destruct (deliver_data_keeps data w) as (-> & -> & -> & -> & _). exact H.
  - unfold timer_in_step in *.
    destruct (deliver_stop_keeps final w) as (-> & -> & _ & -> & _ & -> & _ & Hmr).
    destruct (mediaRecorderRef (refs (deliver_stop final w))) as [mr1|],
             (mediaRecorderRef (refs w)) as [mr0|];
      try discriminate Hmr; [|exact H].
    injection Hmr as Hmr.
    destruct (isRecording (hooks w)).
    + destruct H as (t & mr & Ht & Hi & [= <-] & Hst & Hp).
      exists t, mr1. rewrite Hmr. repeat split; assumption.
    + destruct H as (Ht & Hi & Hp & Hin).
      repeat split; try assumption.
      intros mr [= <-]. rewrite Hmr. apply (Hin mr0 eq_refl).
Qed.

Lemma mounted_timer_in_step m : timer_in_step (mounted m).
Proof. repeat split. intros mr H. discriminate H. Qed.

Lemma drive_timer_in_step inputs :
  forall w, timer_in_step w -> timer_in_step (drive w inputs).
Proof.
  induction inputs as [|i inputs IH]; intros w H; [exact H|].
  apply (IH (react w i)), react_timer_in_step, H.
Qed.

(** X9. No timer is left dangling.  However the mounted recorder is driven
    through its buttons and the browser's events, an interval timer runs
    exactly while the component shows a recording: then it is the one timer
    in [timerRef], and otherwise there is none. *)
Theorem timer_runs_exactly_while_recording (m : Mode) (inputs : list Input) :
  let w := drive (mounted m) inputs in
  if isRecording (hooks w)
  then exists t captured,
         timerRef (refs w) = Some t /\
         intervals (browser w) = {[ t := captured ]}
  else timerRef (refs w) = None /\ intervals (browser w) = ∅.
Proof.
  pose proof (drive_timer_in_step inputs _ (mounted_timer_in_step m)) as H.
  cbv zeta. unfold timer_in_step in H.
  destruct (isRecording (hooks (drive (mounted m) inputs))).
  - destruct H as (t & mr & Ht & Hi & _). exists t, false. split; assumption.
  - destruct H as (Ht & Hi & _). split; assumption.
Qed.

(** X10. The paused flag tells the truth.  However the mounted recorder is
    driven, the component shows "paused" exactly when it shows a recording
    whose recorder is in the paused state; while it shows a recording the
    recorder is never inactive, and while it shows none there is no active
    recorder. *)
Theorem paused_flag_matches_recorder (m : Mode) (inputs : list Input) :
  let w := drive (mounted m) inputs in
  (isPaused (hooks w) = true <->
   isRecording (hooks w) = true /\
   (mr_state <$> mediaRecorderRef (refs w)) = Some paused) /\
  (isRecording (hooks w) = true <->
   exists mr, mediaRecorderRef (refs w) = Some mr /\ mr_state mr <> inactive).
Proof.
  pose proof (drive_timer_in_step inputs _ (mounted_timer_in_step m)) as H.
  cbv zeta. unfold timer_in_step in H.
  destruct (isRecording (hooks (drive (mounted m) inputs))).
  - destruct H as (t & mr & _ & _ & Hmr & Hst & Hp).
    rewrite Hmr, Hp. simpl. split.
    + rewrite bool_decide_eq_true. split.
      * intros ->. split; reflexivity.
      * intros [_ [= ->]]. reflexivity.
    + split; [intros _; exists mr; split; [reflexivity | exact Hst]
             | reflexivity].
  - destruct H as (_ & _ & Hp & Hin). rewrite Hp. split.
    + split; [discriminate | intros [? _]; discriminate].
    + split; [discriminate|].
      intros (mr & Hmr & Hst). destruct (Hst (Hin mr Hmr)).
Qed.

(** ** The capture stream, button by button *)












(** ** Single handlers *)

(** X13. pause() and resume() undo each other: on a recording that is not
    paused, resume() after pause() gives back the very state pause() was
    called in, and on a paused one pause() after resume() does. *)
Theorem pause_resume_round_trip (w : World) (mr : MediaRecorder) :
  mediaRecorderRef (refs w) = Some mr ->
  (mr_state mr = recording -> isPaused (hooks w) = false ->
   resume (pause w) = w) /\
  (mr_state mr = paused -> isPaused (hooks w) = true ->
   pause (resume w) = w).
Proof.
  destruct w as [[m ir ip sec bu bl] [mref c sr v t] b]; simpl.
  intros ->. destruct mr as [s mt st md sp]; simpl.
  split; intros -> ->; reflexivity.
Qed.

Lemma pause_resume_round_trip_witness :
  let w := run (mounted video) [Start (start_ok full_runtime); Tick] in
  resume (pause w) = w /\ pause (resume (pause w)) = pause w.
Proof.
  cbv zeta. split.
  - apply (proj1 (pause_resume_round_trip
                    (run (mounted video) [Start (start_ok full_runtime); Tick])
                    {| mr_stream := 0;
                       mr_mimeType := Some "video/webm;codecs=vp9,opus";
                       mr_state := recording; mr_mode := video;
                       mr_stopping := false |} eq_refl));
      reflexivity.
  - apply (proj2 (pause_resume_round_trip
                    (pause (run (mounted video)
                              [Start (start_ok full_runtime); Tick]))
                    {| mr_stream := 0;
                       mr_mimeType := Some "video/webm;codecs=vp9,opus";
                       mr_state := paused; mr_mode := video;
                       mr_stopping := false |} eq_refl));
      reflexivity.
Defined.

(** X14. Re-record discards the take: whatever the state, after Re-record the
    blob and its URL are gone from the state, the counter is back to zero,
    nothing is recording and the Start button is shown; and the object URL
    the player was using has been revoked. *)
Theorem rerecord_discards_the_take (w : World) (u : nat) :
  blobUrl (hooks w) = Some u ->
  let w' := rerecord w in
  blob (hooks w') = None /\
  blobUrl (hooks w') = None /\
  (u ∉ object_urls (browser w')) /\
  seconds (hooks w') = 0 /\
  isRecording (hooks w') = false /\
  shown w' StartButton = true /\
  shown w' RerecordButton = false.
Proof.
  intros Hu. cbv zeta. unfold rerecord, stop, resetRecording, shown.
  destruct w as [[m ir ip sec bu bl] [mr c sr v t] b]; simpl in *. subst bu.
  destruct mr, ir, sr, v, t; simpl; repeat split;
    apply RecorderFacts.tracks_stopped.
Qed.

Lemma rerecord_discards_the_take_witness :
  let w := rerecord stopped_audio in
  blob (hooks w) = None /\ (0 ∉ object_urls (browser w)).
Proof.
  destruct (rerecord_discards_the_take stopped_audio 0 eq_refl)
    as (H1 & _ & H3 & _).
  split; [exact H1 | exact H3].
Defined.

(** ** save *)

(** X15. save() either records everything or reports once.  With a blob to
    save, and whatever the three awaited calls do, the [saving] flag is
    false again afterwards and the recorder's state is untouched; and
    either all three calls resolved, and then the blob is in the bucket
    under its room's folder, one document with the download URL was added,
    onDone was called with the same type and URL, and no alert was shown;
    or one of them rejected, and then no document was added, onDone was not
    called, and exactly one alert carries the error's message. *)
Theorem save_all_or_alert (env : SaveEnv) (p : Page) (b : Blob) :
  blob (hooks (recorder p)) = Some b ->
  let p' := save env p in
  let is_video := isVideo (mode (hooks (recorder p))) b in
  let path := "rooms/" +:+ roomId p +:+ "/" +:+
              (if is_video then "videos" else "audio") +:+ "/" +:+
              pretty (now env) +:+ "-recording." +:+ "webm" in
  saving p' = false /\
  hooks (recorder p') = hooks (recorder p) /\
  refs (recorder p') = refs (recorder p) /\
  ((exists url,
      getDownloadURL env = Resolved url /\
      bucket p' = bucket p ++ [(path, b)] /\
      clips p' = clips p ++ [{| clip_roomId := roomId p;
                               clip_type := kind_label is_video;
                               clip_url := url |}] /\
      done p' = done p ++ (if has_onDone p
                           then [(kind_label is_video, url)] else []) /\
      alerts (browser (recorder p')) = alerts (browser (recorder p))) \/
   (exists msg,
      clips p' = clips p /\
      done p' = done p /\
      alerts (browser (recorder p')) =
        alerts (browser (recorder p)) ++ ["Failed to save: " +:+ msg] /\
      (bucket p' = bucket p \/ bucket p' = bucket p ++ [(path, b)]))).
Proof.
  intros Hb. cbv zeta. unfold save. rewrite Hb. simpl.
  destruct (uploadBytes env) as [[]|msg]; simpl.
  2:{ repeat split. right. exists msg. repeat split. left. reflexivity. }
  destruct (getDownloadURL env) as [url|msg]; simpl.
  2:{ repeat split. right. exists msg. repeat split. right. reflexivity. }
  destruct (addDoc env) as [[]|msg]; simpl.
  2:{ repeat split. right. exists msg. repeat split. right. reflexivity. }
  unfold call_onDone; simpl.
  destruct (has_onDone p); simpl; repeat split; left; exists url;
    rewrite ?app_nil_r; repeat split.
Qed.

Lemma save_all_or_alert_witness :
  let p' := save save_ok (page "atrium" stopped_audio) in
  saving p' = false /\
  clips p' = [{| clip_roomId := "atrium"; clip_type := "audio";
                 clip_url := "https://storage.example/clip" |}].
Proof.
  destruct (save_all_or_alert save_ok (page "atrium" stopped_audio)
              {| payload := []; type := "audio/webm" |} eq_refl)
    as (H1 & _ & _ & [(url & Hu & _ & Hc & _) | (msg & Hc & _ & Ha & _)]).
  - split; [exact H1|]. injection Hu as <-. exact Hc.
  - vm_compute in Ha. discriminate Ha.
Defined.

(** ** From recording to saving *)

Lemma start_mode env w : mode (hooks (start env w)) = mode (hooks w).
Proof.
  unfold start.
  destruct w as [[m ir ip sec bu bl] [mr c sr v t] b]; simpl.
  destruct (getUserMedia env), (construct env), (mr_start env), bu, m, v;
    reflexivity.
Qed.

Lemma step_mode w e : mode (hooks (step w e)) = mode (hooks w).
Proof.
  destruct e; simpl.
  - apply start_mode.
  - unfold pause. destruct (mediaRecorderRef (refs w)) as [mr|];
      [destruct (mr_state mr)|]; reflexivity.
  - unfold resume. destruct (mediaRecorderRef (refs w)) as [mr|];
      [destruct (mr_state mr)|]; reflexivity.
  - unfold stop. destruct w as [[m ir ip sec bu bl] [mr c sr v t] b]; simpl.
    destruct mr, ir, sr, v; reflexivity.
  - reflexivity.
  - destruct (deliver_data_keeps data w) as (-> & _). reflexivity.
  - apply deliver_stop_keeps.
  - unfold unmount. destruct w as [[m ir ip sec bu bl] [mr c sr v t] b]; simpl.
    destruct mr as [mr|]; simpl;
      try destruct (bool_decide (mr_state mr <> inactive)); simpl;
      destruct sr, v; reflexivity.
Qed.

Lemma run_mode es : forall w, mode (hooks (run w es)) = mode (hooks w).
Proof.
  induction es as [|e es IH]; intros w; [reflexivity|].
  change (run w (e :: es)) with (run (step w e) es).
  rewrite IH. apply step_mode.
Qed.

(** A finished session: stopped, with a blob and an object URL for it. *)
Lemma session_finished env w es final :
  getUserMedia env = None -> construct env = None -> mr_start env = None ->
  forallb session_event es = true ->
  let w' := run w (Start env :: es ++ [Stop; Stopped final]) in
  isRecording (hooks w') = false /\
  mode (hooks w') = mode (hooks w) /\
  (exists bs,
     blob (hooks w') =
       Some {| payload := bs; type := blob_type_of (mode (hooks w)) |}) /\
  exists u, blobUrl (hooks w') = Some u.
Proof.
  intros Hg Hc Hs Hes. cbv zeta.
  split; [|split; [apply run_mode|split]].
  - change (Start env :: es ++ [Stop; Stopped final])
      with ((Start env :: es) ++ [Stop; Stopped final]).
    rewrite RecorderFacts.session_run_app. simpl.
    destruct (deliver_stop_keeps final (stop (run (start env w) es)))
      as (-> & _).
    apply RecorderFacts.stop_clears.
  - eexists. rewrite (RecorderFacts.finished_blob env w es final Hg Hc Hs Hes).
    reflexivity.
  - change (Start env :: es ++ [Stop; Stopped final])
      with ((Start env :: es) ++ [Stop; Stopped final]).
    rewrite RecorderFacts.session_run_app. simpl.
    destruct (RecorderFacts.run_in_session (mode (hooks w)) es [] (start env w)
                Hes (proj1 (RecorderFacts.start_in_session env w Hg Hc Hs)))
      as (Hr & _ & mr & Hmr & Hst & _ & _).
    set (w1 := run (start env w) es) in *.
    change (foldl step (start env w) es) with w1.
    unfold stop, deliver_stop.
    destruct w1 as [[m ir ip sec bu bl] [mref c sr v t] b]; simpl in *.
    subst ir mref. unfold mr_stop.
    destruct (mr_state mr); [contradiction| |];
      destruct sr, v; simpl; eexists; reflexivity.
Qed.

(** X16. What was recorded is what is saved, unless the mode has been switched
    since.  Record a session in mode [m], stop, choose mode [m'] (the mode
    buttons are enabled again), and save with every call succeeding: the
    one document added, the onDone call and the storage folder all say
    "video" when both [m] and [m'] are video, and "audio" in every other
    case; the download button names its file the same way. *)
Theorem recorded_kind_is_saved_kind
    (m m' : Mode) (env : StartEnv) (es : list Event) (final : option Blob)
    (senv : SaveEnv) (room url : string) (clock : N) :
  getUserMedia env = None -> construct env = None -> mr_start env = None ->
  forallb session_event es = true ->
  uploadBytes senv = Resolved tt ->
  getDownloadURL senv = Resolved url ->
  addDoc senv = Resolved tt ->
  let w := chooseMode m'
             (run (mounted m) (Start env :: es ++ [Stop; Stopped final])) in
  let both_video := bool_decide (m = video) && bool_decide (m' = video) in
  let p' := save senv (page room w) in
  clips p' = [{| clip_roomId := room; clip_type := kind_label both_video;
                 clip_url := url |}] /\
  done p' = [(kind_label both_video, url)] /\
  (exists b,
     bucket p' =
       [("rooms/" +:+ room +:+ "/" +:+
         (if both_video then "videos" else "audio") +:+ "/" +:+
         pretty (now senv) +:+ "-recording." +:+ "webm", b)] /\
     type b = blob_type_of m) /\
  exists u,
    downloads (download clock (page room w)) =
      [(kind_label both_video +:+ "-" +:+ pretty clock +:+ "." +:+ "webm", u)].
Proof.
  intros Hg Hc Hs Hes Hu Hd Ha. cbv zeta.
  destruct (session_finished env (mounted m) es final Hg Hc Hs Hes)
    as (Hr & Hm & (bs & Hb) & (u & Hurl)).
  cbv zeta in *.
  set (w0 := run (mounted m) (Start env :: es ++ [Stop; Stopped final])) in *.
  assert (Hw : hooks (chooseMode m' w0) = setMode m' (hooks w0)).
  { unfold chooseMode, canToggleMode. rewrite Hr. reflexivity. }
  assert (Hv : isVideo m' {| payload := bs; type := blob_type_of m |} =
               bool_decide (m = video) && bool_decide (m' = video)).
  { unfold isVideo. destruct m, m'; reflexivity. }
  unfold save, download, page; simpl.
  rewrite Hw; simpl. rewrite Hb, Hurl, Hu, Hd, Ha; simpl.
  rewrite Hv.
  destruct (bool_decide (m = video) && bool_decide (m' = video)); simpl;
    (split; [reflexivity|]); (split; [reflexivity|]);
    (split; [eexists; split; reflexivity | eexists; reflexivity]).
Qed.

Lemma recorded_kind_is_saved_kind_witness :
  let w := chooseMode audio
             (run (mounted video)
                (Start (start_ok full_runtime) ::
                 three_chunks ++ [Stop; Stopped None])) in
  clip_type <$> clips (save save_ok (page "atrium" w)) = ["audio"].
Proof.
  destruct (recorded_kind_is_saved_kind video audio (start_ok full_runtime)
              three_chunks None save_ok "atrium"
              "https://storage.example/clip" 0
              eq_refl eq_refl eq_refl eq_refl eq_refl eq_refl eq_refl)
    as (Hc & _).
  cbv zeta in *. rewrite Hc. reflexivity.
Defined.

(** ** The counter over a whole session *)

Lemma every_tick_counts_witness :
  seconds (hooks (run (mounted audio)
                    (Start (start_ok full_runtime) ::
                     [Tick; Pause; Tick; Tick; Resume; Tick]))) = 4.
Proof.
  apply (RecorderFacts.every_tick_counts_after_start
           (start_ok full_runtime) (mounted audio)
           [Tick; Pause; Tick; Tick; Resume; Tick]);
    reflexivity.
Defined.

End RecorderUIFacts.

(** * Properties of the submit form *)

Module UploadFacts.
Import Upload.

Section WithTrim.

Variable trim : string -> string.

Lemma ensureRoom_cases f :
  (ensureRoom trim f).1 <> "" /\
  name (ensureRoom trim f).2 = name f /\
  email (ensureRoom trim f).2 = email f /\
  uploading (ensureRoom trim f).2 = uploading f /\
  videoFile (ensureRoom trim f).2 = videoFile f /\
  glbFile (ensureRoom trim f).2 = glbFile f /\
  clips (ensureRoom trim f).2 = clips f /\
  alerts (ensureRoom trim f).2 = alerts f /\
  bucket (ensureRoom trim f).2 = bucket f /\
  collection (ensureRoom trim f).2 = collection f.
Proof.
  unfold ensureRoom.
  destruct (bool_decide (trim (roomId f) = "")) eqn:E; simpl.
  - split; [discriminate | repeat split].
  - apply bool_decide_eq_false in E. split; [exact E | repeat split].
Qed.

(** The three ways through [handleUpload]. *)
Lemma handleUpload_cases env f :
  let rid := (ensureRoom trim f).1 in
  let f0 := (ensureRoom trim f).2 in
  ((name f = "" \/ email f = "") /\
   handleUpload trim env f = alert "Add your name and email." f0) \/
  (name f <> "" /\ email f <> "" /\ chosen f = None /\
   handleUpload trim env f = alert "Select a video or a GLB." f0) \/
  (name f <> "" /\ email f <> "" /\
   exists folder type file,
     chosen f = Some (folder, type, file) /\
     (type = "video" \/ type = "glb") /\
     handleUpload trim env f =
       setUploading false
         (upload_file env rid folder type file
            {| doc_roomId := rid; authorName := name f;
               authorEmail := email f; doc_type := None; doc_url := None |}
            (setUploading true f0))).
Proof.
  cbv zeta.
  destruct (ensureRoom_cases f) as (_ & Hn & He & _ & Hv & Hg & _).
  unfold handleUpload, chosen.
  destruct (ensureRoom trim f) as [rid f0]; simpl in *.
  rewrite Hn, He, Hv, Hg.
  destruct (bool_decide (name f = "")) eqn:En; simpl.
  { apply bool_decide_eq_true in En. left. split; [left; exact En | reflexivity]. }
  destruct (bool_decide (email f = "")) eqn:Ee; simpl.
  { apply bool_decide_eq_true in Ee. left. split; [right; exact Ee | reflexivity]. }
  apply bool_decide_eq_false in En, Ee. right.
  destruct (videoFile f) as [v|], (glbFile f) as [g|].
  - right. split; [exact En|]. split; [exact Ee|].
    exists "videos", "video", v. split; [reflexivity|].
    split; [left; reflexivity | reflexivity].
  - right. split; [exact En|]. split; [exact Ee|].
    exists "videos", "video", v. split; [reflexivity|].
    split; [left; reflexivity | reflexivity].
  - right. split; [exact En|]. split; [exact Ee|].
    exists "glb", "glb", g. split; [reflexivity|].
    split; [right; reflexivity | reflexivity].
  - left. repeat split; assumption.
Qed.

(** X17. A form that is not ready uploads nothing.  With the name or the email
    empty, or with no file chosen, handleUpload sends nothing to storage,
    adds no document, leaves the chosen files, the listed clips and the
    uploading flag as they were, and shows exactly one alert, which names
    the first thing that is missing. *)
Theorem unready_form_uploads_nothing env f :
  name f = "" \/ email f = "" \/ chosen f = None ->
  let f' := handleUpload trim env f in
  bucket f' = bucket f /\
  collection f' = collection f /\
  uploading f' = uploading f /\
  videoFile f' = videoFile f /\
  glbFile f' = glbFile f /\
  clips f' = clips f /\
  alerts f' =
    alerts f ++ [if bool_decide (name f = "") || bool_decide (email f = "")
                 then "Add your name and email."
                 else "Select a video or a GLB."].
Proof.
  intros H. cbv zeta.
  destruct (ensureRoom_cases f)
    as (_ & _ & _ & Hu & Hv & Hg & Hc & Ha & Hb & Hcol).
  destruct (handleUpload_cases env f)
    as [([Hn | He] & ->) | [(Hn & He & Hch & ->) | (Hn & He & Hex)]];
    simpl.
  - rewrite Hb, Hcol, Hu, Hv, Hg, Hc, Ha.
    rewrite (bool_decide_eq_true_2 _ Hn). repeat split.
  - rewrite Hb, Hcol, Hu, Hv, Hg, Hc, Ha.
    rewrite (bool_decide_eq_true_2 _ He), orb_true_r. repeat split.
  - rewrite Hb, Hcol, Hu, Hv, Hg, Hc, Ha.
    rewrite (bool_decide_eq_false_2 _ Hn), (bool_decide_eq_false_2 _ He).
    repeat split.
  - destruct Hex as (folder & type & file & Hch & _).
    destruct H as [H | [H | H]]; [contradiction | contradiction|].
    rewrite H in Hch. discriminate Hch.
Qed.

(** What one upload does to the form when it is ready. *)
Lemma upload_file_cases env rid folder type file doc f :
  let path := "rooms/" +:+ rid +:+ "/" +:+ folder +:+ "/" +:+
              pretty (now env) +:+ "-" +:+ file_name file in
  let f' := upload_file env rid folder type file doc f in
  uploading f' = uploading f /\
  ((exists url,
      uploadBytes env = Resolved tt /\ getDownloadURL env = Resolved url /\
      addDoc env = Resolved tt /\
      bucket f' = bucket f ++ [(path, file)] /\
      collection f' =
        collection f ++ [{| doc_roomId := doc_roomId doc;
                            authorName := authorName doc;
                            authorEmail := authorEmail doc;
                            doc_type := Some type; doc_url := Some url |}] /\
      videoFile f' = None /\ glbFile f' = None /\
      match getDocs env with
      | Resolved next =>
          clips f' = next /\ alerts f' = alerts f ++ ["Uploaded!"] /\
          posted f' = posted f ++ (if iframe_window f then [next] else [])
      | Rejected msg =>
          clips f' = clips f /\ posted f' = posted f /\
          alerts f' = alerts f ++ ["Uploaded!"; "Upload failed: " +:+ msg]
      end) \/
   (exists msg,
      (uploadBytes env = Rejected msg \/ getDownloadURL env = Rejected msg \/
       addDoc env = Rejected msg) /\
      collection f' = collection f /\
      videoFile f' = videoFile f /\ glbFile f' = glbFile f /\
      clips f' = clips f /\ posted f' = posted f /\
      alerts f' = alerts f ++ ["Upload failed: " +:+ msg] /\
      (bucket f' = bucket f \/ bucket f' = bucket f ++ [(path, file)]))).
Proof.
  cbv zeta. unfold upload_file.
  destruct (uploadBytes env) as [[]|msg]; simpl.
  2:{ split; [reflexivity|]. right. exists msg.
      split; [left; reflexivity|]. repeat split. left. reflexivity. }
  destruct (getDownloadURL env) as [url|msg]; simpl.
  2:{ split; [reflexivity|]. right. exists msg.
      split; [right; left; reflexivity|]. repeat split. right. reflexivity. }
  unfold add_and_refresh.
  destruct (addDoc env) as [[]|msg]; simpl.
  2:{ split; [reflexivity|]. right. exists msg.
      split; [right; right; reflexivity|]. repeat split. right. reflexivity. }
  destruct (getDocs env) as [next|msg]; simpl.
  - unfold postToAR; simpl.
    destruct (iframe_window f); simpl; (split; [reflexivity|]); left;
      exists url; rewrite ?app_nil_r; repeat split.
  - split; [reflexivity|]. left. exists url.
    rewrite <- app_assoc. repeat split.
Qed.

(** X18. A ready upload stores everything or reports failure.  With a name, an
    email and a file, handleUpload ends with the uploading flag false and,
    either, the file in its room's folder, one complete document added
    and both pickers cleared, with "Uploaded!" shown (followed by a failure
    alert if only the refresh of the list failed); or, when the upload, the
    URL fetch or the write rejected, no document, the chosen file kept for
    another try, and exactly one failure alert. *)
Theorem ready_upload_stores_or_reports env f folder type file :
  name f <> "" -> email f <> "" ->
  chosen f = Some (folder, type, file) ->
  let rid := (ensureRoom trim f).1 in
  let path := "rooms/" +:+ rid +:+ "/" +:+ folder +:+ "/" +:+
              pretty (now env) +:+ "-" +:+ file_name file in
  let f' := handleUpload trim env f in
  uploading f' = false /\
  rid <> "" /\
  ((exists url,
      getDownloadURL env = Resolved url /\
      bucket f' = bucket f ++ [(path, file)] /\
      collection f' =
        collection f ++ [{| doc_roomId := rid; authorName := name f;
                            authorEmail := email f;
                            doc_type := Some type; doc_url := Some url |}] /\
      videoFile f' = None /\ glbFile f' = None /\
      match getDocs env with
      | Resolved next =>
          clips f' = next /\ alerts f' = alerts f ++ ["Uploaded!"]
      | Rejected msg =>
          clips f' = clips f /\
          alerts f' = alerts f ++ ["Uploaded!"; "Upload failed: " +:+ msg]
      end) \/
   (exists msg,
      collection f' = collection f /\
      videoFile f' = videoFile f /\ glbFile f' = glbFile f /\
      clips f' = clips f /\
      alerts f' = alerts f ++ ["Upload failed: " +:+ msg])).
Proof.
  intros Hn He Hch. cbv zeta.
  destruct (ensureRoom_cases f)
    as (Hrid & _ & _ & _ & Hv & Hg & Hc & Ha & Hb & Hcol).
  destruct (handleUpload_cases env f)
    as [([Hn' | He'] & _) | [(_ & _ & Hch' & _) | (_ & _ & Hex)]];
    try contradiction.
  { rewrite Hch in Hch'. discriminate Hch'. }
  destruct Hex as (folder' & type' & file' & Hch' & _ & ->).
  rewrite Hch in Hch'. injection Hch' as <- <- <-.
  split; [reflexivity|]. split; [exact Hrid|].
  match goal with |- context [upload_file env ?r ?fo ?ty ?fi ?d ?f1] =>
    destruct (upload_file_cases env r fo ty fi d f1) as (_ & Hcases) end.
  cbv zeta in Hcases. simpl in Hcases.
  rewrite Hv, Hg, Hc, Ha, Hb, Hcol in Hcases.
  destruct Hcases
    as [(url & _ & Hu & _ & H1 & H2 & H3 & H4 & H5)
       | (msg & _ & H1 & H2 & H3 & H4 & _ & H6 & _)].
  - left. exists url. simpl.
    split; [exact Hu|]. split; [exact H1|]. split; [exact H2|].
    split; [exact H3|]. split; [exact H4|].
    destruct (getDocs env) as [next|msg].
    + destruct H5 as (H5 & H6 & _). split; assumption.
    + destruct H5 as (H5 & _ & H6). split; assumption.
  - right. exists msg. simpl. repeat split; assumption.
Qed.

(** What [handleUpload] can do to the chosen files and the collection. *)
Lemma handleUpload_keeps env f :
  let f' := handleUpload trim env f in
  ((videoFile f' = videoFile f /\ glbFile f' = glbFile f) \/
   (videoFile f' = None /\ glbFile f' = None)) /\
  (collection f' = collection f \/
   exists d, collection f' = collection f ++ [d] /\ complete d).
Proof.
  cbv zeta.
  destruct (ensureRoom_cases f)
    as (Hrid & _ & _ & _ & Hv & Hg & _ & _ & _ & Hcol).
  destruct (handleUpload_cases env f)
    as [(_ & ->) | [(_ & _ & _ & ->) | (Hn & He & Hex)]]; simpl.
  - rewrite Hv, Hg, Hcol. split; left; repeat split.
  - rewrite Hv, Hg, Hcol. split; left; repeat split.
  - destruct Hex as (folder & type & file & _ & Hty & ->). simpl.
    match goal with |- context [upload_file env ?r ?fo ?ty ?fi ?d ?f1] =>
      destruct (upload_file_cases env r fo ty fi d f1) as (_ & Hcases) end.
    cbv zeta in Hcases. simpl in Hcases. rewrite Hv, Hg, Hcol in Hcases.
    destruct Hcases
      as [(url & _ & _ & _ & _ & H2 & H3 & H4 & _)
         | (msg & _ & H1 & H2 & H3 & _)].
    + split; [right; split; assumption|].
      right. eexists. split; [exact H2|].
      repeat split; simpl; try assumption; try discriminate.
      destruct Hty as [-> | ->]; [left | right]; reflexivity.
    + split; [left; split; assumption | left; assumption].
Qed.

Lemma edit_keeps (f : Form) (e : Edit) :
  (videoFile f = None \/ glbFile f = None) /\ Forall complete (collection f) ->
  (videoFile (edit trim f e) = None \/ glbFile (edit trim f e) = None) /\
  Forall complete (collection (edit trim f e)).
Proof.
  intros [Hone Hall]. destruct e; simpl; try (split; assumption).
  - split; [right; reflexivity | assumption].
  - split; [left; reflexivity | assumption].
  - destruct (handleUpload_keeps env f) as [Hfiles Hcol]. cbv zeta in *.
    split.
    + destruct Hfiles as [[-> ->] | [-> _]]; [exact Hone | left; reflexivity].
    + destruct Hcol as [-> | (d & -> & Hd)]; [exact Hall|].
      apply Forall_app. split; [exact Hall|].
      constructor; [exact Hd | constructor].
Qed.

Lemma edits_keep (es : list Edit) :
  forall f,
    (videoFile f = None \/ glbFile f = None) /\ Forall complete (collection f) ->
    (videoFile (foldl (edit trim) f es) = None \/
     glbFile (foldl (edit trim) f es) = None) /\
    Forall complete (collection (foldl (edit trim) f es)).
Proof.
  induction es as [|e es IH]; intros f H; [exact H|].
  apply (IH (edit trim f e)), edit_keeps, H.
Qed.

(** X19. One file at a time.  However the form is filled in, picked from and
    submitted, at most one of the two pickers holds a file, so the
    precedence of the video over the GLB in handleUpload never drops a
    file the user chose. *)
Theorem one_file_at_a_time (room : string) (es : list Edit) :
  videoFile (foldl (edit trim) (blank room) es) = None \/
  glbFile (foldl (edit trim) (blank room) es) = None.
Proof.
  apply (edits_keep es (blank room)).
  split; [left; reflexivity | constructor].
Qed.

(** X20. Every document the form adds is complete.  However the form is used,
    each document it has added to the collection has a non-empty room, a
    non-empty author name and email, the type "video" or "glb", and a
    download URL. *)
Theorem added_documents_are_complete (room : string) (es : list Edit)
    (d : ClipDoc) :
  d ∈ collection (foldl (edit trim) (blank room) es) ->
  complete d.
Proof.
  intros Hd.
  destruct (edits_keep es (blank room)) as [_ Hall].
  { split; [left; reflexivity | constructor]. }
  rewrite Forall_forall in Hall. apply Hall. exact Hd.
Qed.

End WithTrim.

Lemma unready_form_uploads_nothing_witness :
  let f' := handleUpload trim_spaces upload_ok
              (pickVideo (Some a_video) (blank "atrium")) in
  bucket f' = [] /\ alerts f' = ["Add your name and email."].
Proof.
  destruct (unready_form_uploads_nothing trim_spaces upload_ok
              (pickVideo (Some a_video) (blank "atrium")))
    as (H1 & _ & _ & _ & _ & _ & H2).
  - left. reflexivity.
  - split; [exact H1 | exact H2].
Defined.

Lemma ready_upload_stores_or_reports_witness :
  let f' := handleUpload trim_spaces upload_ok filled in
  uploading f' = false /\
  (doc_roomId <$> collection f') = ["demo-room"].
Proof.
  destruct (ready_upload_stores_or_reports trim_spaces upload_ok filled
              "videos" "video" a_video)
    as (H1 & _ & [(url & _ & _ & Hc & _) | (msg & _ & _ & _ & _ & Ha)]);
    try (vm_compute; congruence).
  - split; [exact H1|]. rewrite Hc. reflexivity.
  - vm_compute in Ha. discriminate Ha.
Defined.

Lemma added_documents_are_complete_witness : complete uploaded_document.
Proof.
  apply (added_documents_are_complete trim_spaces "  " upload_session).
  vm_compute. apply list_elem_of_here.
Defined.

End UploadFacts.

(** * Properties of the voice-note recorder *)

Module VoiceNoteFacts.
Import VoiceNote.





(** During a session only the counter and the buffer move. *)
Lemma session_inputs es :
  forall w t,
    mediaRecorderRef w <> None ->
    timers w = {[ t ]} ->
    forallb session_input es = true ->
    exists cs,
      drive w es =
        {| recording := recording w;
           seconds := seconds w + seconds_passed es;
           blobUrl := blobUrl w; blob := blob w;
           mediaRecorderRef := mediaRecorderRef w; chunksRef := cs;
           timerRef := timerRef w; finishing := finishing w; live := live w;
           next_stream := next_stream w; timers := timers w;
           next_timer := next_timer w; next_url := next_url w |} /\
      concat (map Recorder.payload cs) =
        concat (map Recorder.payload (chunksRef w)) ++ bytes_delivered es.
Proof.
  induction es as [|i es IH]; intros w t Hmr Ht Hes.
  - exists (chunksRef w). simpl. rewrite Nat.add_0_r, app_nil_r.
    split; [destruct w; reflexivity | reflexivity].
  - simpl in Hes. apply andb_prop in Hes as [Hi Hes].
    destruct i as [env| | | |d|f]; try discriminate Hi;
      change (drive w (?i :: es)) with (drive (react w i) es); simpl.
    + destruct (IH (tick w) t Hmr Ht Hes) as (cs & -> & Hcs).
      exists cs. simpl. rewrite Ht, size_singleton.
      split; [f_equal; lia | exact Hcs].
    + unfold deliver_data.
      destruct (mediaRecorderRef w) as [s|] eqn:E; [|contradiction].
      unfold ondataavailable.
      destruct d as [d|].
      * destruct (bool_decide (0 < Recorder.size d)) eqn:Ed.
        -- match goal with |- context [drive ?w1 es] =>
             destruct (IH w1 t) as (cs & -> & Hcs) end;
             simpl; rewrite ?E; try assumption; try discriminate.
           exists cs. simpl. rewrite ?E. split; [reflexivity|].
           simpl in Hcs. rewrite Hcs, map_app, concat_app. simpl.
           rewrite app_nil_r, app_assoc. reflexivity.
        -- destruct (IH w t) as (cs & -> & Hcs);
             rewrite ?E; try assumption; try discriminate.
           exists cs. rewrite ?E. split; [reflexivity|].
           apply bool_decide_eq_false in Ed. unfold Recorder.size in Ed.
           destruct (Recorder.payload d) eqn:Ep;
             [exact Hcs | simpl in Ed; lia].
      * destruct (IH w t) as (cs & -> & Hcs);
          rewrite ?E; try assumption; try discriminate.
        exists cs. rewrite ?E. split; [reflexivity | exact Hcs].
Qed.

(** X22. A voice note from start to stop.  Start with the microphone granted,
    let seconds pass and chunks arrive, stop, and let the recorder deliver
    its last chunk: the counter shows the seconds that passed, the blob is
    typed "audio/webm" and its bytes are the delivered chunks' bytes in
    arrival order, the last one included; the microphone is released and no
    timer runs. *)
Theorem voice_note_from_start_to_stop (es : list Input)
    (final : option Recorder.Blob) :
  forallb session_input es = true ->
  let w := drive mounted
             (PressStart granted :: es ++ [PressStop; RecorderStopped final]) in
  recording w = false /\
  seconds w = seconds_passed es /\
  blob w =
    Some {| Recorder.payload := bytes_delivered (es ++ [Chunk final]);
            Recorder.type := "audio/webm" |} /\
  blobUrl w <> None /\
  live w = ∅ /\
  timers w = ∅.
Proof.
  intros Hes. cbv zeta.
  change (PressStart granted :: es ++ [PressStop; RecorderStopped final])
    with ([PressStart granted] ++ es ++ [PressStop; RecorderStopped final]).
  unfold drive. rewrite !foldl_app. fold (drive (foldl react mounted [PressStart granted]) es).
  destruct (session_inputs es (foldl react mounted [PressStart granted]) 0)
    as (cs & -> & Hcs); [discriminate | reflexivity | exact Hes |].
  simpl in Hcs |- *.
  assert (Hb : bytes_delivered (es ++ [Chunk final]) =
               bytes_delivered es ++
               match final with Some d => Recorder.payload d | None => [] end).
  { clear. induction es as [|i es IH]; simpl.
    - destruct final; [apply app_nil_r | reflexivity].
    - destruct i as [| | | |[d|]|]; rewrite ?IH, ?app_assoc; reflexivity. }
  unfold deliver_stop, stop, ondataavailable; simpl.
  destruct final as [d|]; simpl.
  - destruct (bool_decide (0 < Recorder.size d)) eqn:Ed; simpl;
      unfold Recorder.new_Blob; rewrite Hb; simpl.
    + rewrite map_app, concat_app, Hcs. simpl. rewrite app_nil_r.
      repeat split; try discriminate; apply difference_diag_L.
    + apply bool_decide_eq_false in Ed. unfold Recorder.size in Ed.
      destruct (Recorder.payload d) eqn:Ep; [|simpl in Ed; lia].
      rewrite Hcs, app_nil_r.
      repeat split; try discriminate; apply difference_diag_L.
  - unfold Recorder.new_Blob. rewrite Hb, Hcs, app_nil_r.
    repeat split; try discriminate; apply difference_diag_L.
Qed.

Lemma voice_note_from_start_to_stop_witness :
  let w := drive mounted
             (PressStart granted ::
              a_note ++ [PressStop;
                         RecorderStopped (Some (Recorder.chunk [Byte.x02]))]) in
  seconds w = 2 /\
  (Recorder.payload <$> blob w) = Some [Byte.x01; Byte.x02].
Proof.
  destruct (voice_note_from_start_to_stop a_note
              (Some (Recorder.chunk [Byte.x02])) eq_refl)
    as (_ & H1 & H2 & _).
  cbv zeta in *. rewrite H1, H2. split; reflexivity.
Defined.

End VoiceNoteFacts.
